(** * Rift editor client: agent registry, agent sessions and notification routing

    A shallow embedding of the VS Code side of rift (the [Agent] class and
    the [MorphLanguageClient] class) together with the properties of the
    agent life cycle, of progress routing and of the code lenses.

    Conventions of the embedding.
    - An object mutated in place becomes a record that is passed in and
      returned.  The [Map<number, Agent>] registry keeps its insertion
      order, which [provideCodeLenses] observes, so it is an association
      list with the update-in-place discipline of a JavaScript [Map].
    - [throw new Error(msg)] (and the rejected promise of an [async]
      method) is the [Throw msg] result; state changes made before the
      throw are kept.
    - An [await]ed request is resolved by the backend: the response is an
      argument of the operation, and the operation is run to its end in one
      step.  What the environment decides while [create_client] runs (the
      port checks, the outcome of [start()], that of [dispose()]) is an
      argument in the same way; a poll that has not ended yet is the
      [Waiting] outcome.
    - Firing an event emitter appends to the list of emitted signals. *)

From Stdlib Require Import ZArith.
From stdpp Require Import base decidable option list strings pretty gmap.

Local Open Scope string_scope.
Local Open Scope list_scope.
Local Open Scope Z_scope.

(** ** Results of fallible operations *)

Inductive result (A : Type) : Type :=
| Ok (a : A)
| Throw (message : string).
Arguments Ok {A} a.
Arguments Throw {A} message.

(** A value handed back to a JavaScript caller: the two kinds the client
    returns are numbers and strings. *)
Inductive JsValue : Type :=
| JsNumber (n : Z)
| JsString (s : string).

(** ** Editor data: positions, ranges, documents, editors *)

Record Position : Type := mkPosition { line : nat; character : nat }.

Record Range : Type := mkRange { start : Position; end_ : Position }.

#[global] Instance Position_eq_dec : EqDecision Position.
Proof. solve_decision. Defined.

#[global] Instance Range_eq_dec : EqDecision Range.
Proof. solve_decision. Defined.

(** [Position.isBefore] of the editor API. *)
Definition isBefore (p q : Position) : bool :=
  if decide (line p < line q)%nat then true
  else if decide (line q < line p)%nat then false
  else bool_decide (character p < character q)%nat.

(** [new vscode.Range(startLine, startCharacter, endLine, endCharacter)]:
    the editor API orders the two ends. *)
Definition new_Range (startLine startCharacter endLine endCharacter : nat) : Range :=
  let s := mkPosition startLine startCharacter in
  let e := mkPosition endLine endCharacter in
  if isBefore s e then mkRange s e else mkRange e s.

Record TextDocumentIdentifier : Type := mkTextDocumentIdentifier { uri : string }.

#[global] Instance TextDocumentIdentifier_eq_dec : EqDecision TextDocumentIdentifier.
Proof. solve_decision. Defined.

(** A text document of the editor: its uri (in the string form given by
    [uri.toString()]) and its lines. *)
Record TextDocument : Type := mkTextDocument {
  document_uri : string;
  lines : list string
}.

Record TextLine : Type := mkTextLine {
  lineNumber : nat;
  text : string;
  range : Range
}.

(** [document.lineAt(line)] of the editor API: the line with its range,
    which spans the whole line; a line number outside the document is
    refused. *)
Definition lineAt (document : TextDocument) (n : nat) : result TextLine :=
  match lines document !! n with
  | Some s => Ok (mkTextLine n s (mkRange (mkPosition n 0) (mkPosition n (String.length s))))
  | None => Throw "Illegal value for `line`"
  end.

(** A decoration type is an opaque handle; the editor hands out a fresh one
    on every [createTextEditorDecorationType]. *)
Definition TextEditorDecorationType : Type := nat.

(** A visible editor: the document it shows and, for each decoration type,
    the ranges currently decorated with it. *)
Record TextEditor : Type := mkTextEditor {
  document : TextDocument;
  decorations : gmap nat (list Range)
}.

(** [editor.setDecorations(type, ranges)] replaces the ranges of [type]. *)
Definition setDecorations (type : TextEditorDecorationType) (rs : list Range)
    (editor : TextEditor) : TextEditor :=
  mkTextEditor (document editor) (<[type := rs]> (decorations editor)).

(** The ranges an editor shows for a decoration type. *)
Definition decorated (type : TextEditorDecorationType) (editor : TextEditor) : list Range :=
  default [] (decorations editor !! type).

(** ** Agent status and progress notifications *)

Inductive AgentStatus : Type := running | done | error | accepted | rejected.

#[global] Instance AgentStatus_eq_dec : EqDecision AgentStatus.
Proof. solve_decision. Defined.

Definition is_terminal (s : AgentStatus) : bool :=
  match s with
  | accepted | rejected => true
  | _ => false
  end.

Record LogEntry : Type := mkLogEntry { severity : string; message : string }.

(** The payload of a [morph/progress] notification.  The interface declares
    [status] mandatory, yet the handler tests it for truthiness like the
    optional fields: [None] stands for a payload that came without it. *)
Module RunAgentProgress.
Record t : Type := mk {
  id : Z;
  textDocument : TextDocumentIdentifier;
  log : option LogEntry;
  cursor : option Position;
  ranges : option (list Range);
  status : option AgentStatus
}.
End RunAgentProgress.

(** Signals sent by the event emitters of the client. *)
Inductive Signal : Type :=
| StatusChange (agent : Z) (s : AgentStatus)   (* an Agent's onStatusChangeEmitter *)
| ChangeLenses.                                (* the client's changeLensEmitter *)

#[global] Instance Signal_eq_dec : EqDecision Signal.
Proof. solve_decision. Defined.

(** The listeners the client attaches to an agent's [onStatusChange]; the
    only one in the code is [e => this.changeLensEmitter.fire()]. *)
Inductive Listener : Type := FireChangeLens.

Definition call_listener (l : Listener) : list Signal :=
  match l with FireChangeLens => [ChangeLenses] end.

(** ** A JavaScript [Map] with integer keys

    Entries are kept in insertion order; [set] on a key that is present
    replaces the value where it stands, and appends otherwise. *)
Module JsMap.
Section JsMap.
Context {V : Type}.

Definition t : Type := list (Z * V).

Definition empty : t := [].

Fixpoint get (k : Z) (m : t) : option V :=
  match m with
  | [] => None
  | (k', v) :: m' => if decide (k = k') then Some v else get k m'
  end.

Fixpoint set (k : Z) (v : V) (m : t) : t :=
  match m with
  | [] => [(k, v)]
  | (k', v') :: m' =>
      if decide (k = k') then (k, v) :: m' else (k', v') :: set k v m'
  end.

Definition keys (m : t) : list Z := map fst m.
Definition values (m : t) : list V := map snd m.
End JsMap.
Arguments t V : clear implicits.
End JsMap.

(** ** The Agent class *)
Module Agent.
Record t : Type := mk {
  id : Z;
  startPosition : Position;
  textDocument : TextDocumentIdentifier;
  status : AgentStatus;
  green : TextEditorDecorationType;
  ranges : list Range;
  onStatusChange : list Listener
}.

Definition set_status (s : AgentStatus) (a : t) : t :=
  mk (id a) (startPosition a) (textDocument a) s (green a) (ranges a) (onStatusChange a).

Definition set_ranges (rs : list Range) (a : t) : t :=
  mk (id a) (startPosition a) (textDocument a) (status a) (green a) rs (onStatusChange a).

(** [agent.onStatusChange(listener)] *)
Definition subscribe (l : Listener) (a : t) : t :=
  mk (id a) (startPosition a) (textDocument a) (status a) (green a) (ranges a)
     (onStatusChange a ++ [l]).

(** The constructor; [green] is the decoration type created for the agent. *)
Definition new (id : Z) (startPosition : Position) (textDocument : TextDocumentIdentifier)
    (green : TextEditorDecorationType) : t :=
  mk id startPosition textDocument running green [] [].

(** [this.onStatusChangeEmitter.fire(s)]: the signal, then every listener. *)
Definition fire (this : t) (s : AgentStatus) : list Signal :=
  StatusChange (id this) s :: concat (map call_listener (onStatusChange this)).

(** The decorations one visible editor ends with in the loop of
    [handleProgress]. *)
Definition decorate (this : t) (params : RunAgentProgress.t) (editor : TextEditor) : TextEditor :=
  if bool_decide (RunAgentProgress.status params = Some accepted
                  ∨ RunAgentProgress.status params = Some rejected)
  then setDecorations (green this) [] editor
  else match RunAgentProgress.ranges params with
       | Some rs =>
           setDecorations (green this)
             (map (λ r, new_Range (line (start r)) (character (start r))
                                  (line (end_ r)) (character (end_ r))) rs)
             editor
       | None => editor
       end.

(** [handleProgress(params)], run against the visible editors; returns the
    agent, the editors and the signals fired. *)
Definition handleProgress (this : t) (params : RunAgentProgress.t)
    (visibleTextEditors : list TextEditor) : t * list TextEditor * list Signal :=
  let '(this, fired) :=
    match RunAgentProgress.status params with
    | Some s =>
        if decide (status this ≠ s)
        then (set_status s this, fire this s)
        else (this, [])
    | None => (this, [])
    end in
  let this :=
    match RunAgentProgress.ranges params with
    | Some rs => set_ranges rs this
    | None => this
    end in
  let editors :=
    map (λ e,
           if bool_decide (document_uri (document e) = uri (RunAgentProgress.textDocument params))
           then decorate this params e
           else e)
        visibleTextEditors in
  (this, editors, fired).

(** A sequence of progress notifications delivered to one session. *)
Fixpoint handleAll (this : t) (notifications : list RunAgentProgress.t)
    (visibleTextEditors : list TextEditor) : t * list TextEditor * list Signal :=
  match notifications with
  | [] => (this, visibleTextEditors, [])
  | params :: rest =>
      let '(this, editors, fired) := handleProgress this params visibleTextEditors in
      let '(this, editors, fired') := handleAll this rest editors in
      (this, editors, fired ++ fired')
  end.
End Agent.

(** ** The language client connection *)

(** Connection states of the language-client library. *)
Inductive State : Type := Stopped | Starting | Running.

#[global] Instance State_eq_dec : EqDecision State.
Proof. solve_decision. Defined.

(** Modelled from the spec: [ChatAgentProgress] is declared in [./types],
    which is not part of the sources at hand; the spec calls it the
    "streamed chat payload" and gives it no structure, so it is kept as the
    text of the payload. *)
Definition ChatAgentProgress : Type := string.

(** A chat callback, [(progress: ChatAgentProgress) => any]: all that the
    client observes of it is whether it throws. *)
Definition ChatCallback : Type := ChatAgentProgress → result unit.

Module RunAgentParams.
Record t : Type := mk {
  task : string;
  position : Position;
  textDocument : TextDocumentIdentifier
}.
End RunAgentParams.

Module RunChatParams.
Record t : Type := mk {
  message : string;
  messages : list (string * string);      (* role, content *)
  position : option Position;
  textDocument : option TextDocumentIdentifier
}.
End RunChatParams.

Module RunAgentResult.
Record t : Type := mk { id : Z }.
End RunAgentResult.

Module RunAgentSyncResult.
Record t : Type := mk { id : Z; text : string }.
End RunAgentSyncResult.

(** What the client sends to the backend. *)
Inductive Payload : Type :=
| IdPayload (id : Z)                            (* { id } *)
| RunAgentPayload (params : RunAgentParams.t)
| RunChatPayload (params : RunChatParams.t).

Inductive Outgoing : Type :=
| Request (method : string) (payload : Payload)
| Notification (method : string) (payload : Payload).

(** The notification handlers the client registers on a connection. *)
Inductive Handler : Type :=
| MorphNotify                                   (* this.morph_notify.bind(this) *)
| ChatCallbackHandler (callback : ChatCallback). (* this.morphNotifyChatCallback.bind(this) *)

(** A connection of the language-client library (vscode-languageclient 8):
    its state, the notification handlers registered on it, what it has
    sent to the backend, and the notifications that wait for its start to
    complete. *)
Module LanguageClient.
Record t : Type := mk {
  state : State;
  notificationHandlers : gmap string Handler;
  sent : list Outgoing;
  pending : list Outgoing
}.

(** [new LanguageClient(...)] before [start()] has succeeded: the library
    reports a client that is not started, or whose start failed, as
    stopped. *)
Definition new : t := mk Stopped ∅ [] [].

(** [new LanguageClient(...)] followed by [start()], once the connection is
    up. *)
Definition started : t := mk Running ∅ [] [].

Definition onNotification (method : string) (h : Handler) (c : t) : t :=
  mk (state c) (<[method := h]> (notificationHandlers c)) (sent c) (pending c).

(** [sendRequest(method, params)], as recorded for the operation that awaits
    it: the answer to the request, or its failure, is the [response]
    argument of that operation. *)
Definition sendRequest (method : string) (payload : Payload) (c : t) : t :=
  mk (state c) (notificationHandlers c) (sent c ++ [Request method payload]) (pending c).

(** [sendNotification(method, params)]: a running connection sends the
    notification; a stopped one sends nothing and the promise is rejected;
    a starting one waits for its start to complete before it sends. *)
Definition sendNotification (method : string) (payload : Payload) (c : t) : result t :=
  match state c with
  | Running =>
      Ok (mk (state c) (notificationHandlers c)
            (sent c ++ [Notification method payload]) (pending c))
  | Starting =>
      Ok (mk (state c) (notificationHandlers c)
            (sent c) (pending c ++ [Notification method payload]))
  | Stopped => Throw "Client is not running"
  end.

(** The connection entering a state: when its start completes, the
    notifications that waited for it go out in the order they were issued;
    when it stops, they are given up. *)
Definition enter (s : State) (c : t) : t :=
  match s with
  | Running => mk Running (notificationHandlers c) (sent c ++ pending c) []
  | Starting => mk Starting (notificationHandlers c) (sent c) (pending c)
  | Stopped => mk Stopped (notificationHandlers c) (sent c) []
  end.
End LanguageClient.

(** ** Code lenses *)

Module Command.
Record t : Type := mk {
  title : string;
  command : string;
  tooltip : string;
  arguments : list Z
}.
End Command.

Module AgentLens.
Record t : Type := mk {
  range : Range;
  command : option Command.t;
  id : Z
}.

(** [new AgentLens(range, agent, command)] *)
Definition new (range : Range) (agent : Agent.t) (command : Command.t) : t :=
  mk range (Some command) (Agent.id agent).
End AgentLens.

#[global] Instance Command_eq_dec : EqDecision Command.t.
Proof. solve_decision. Defined.

#[global] Instance AgentLens_eq_dec : EqDecision AgentLens.t.
Proof. solve_decision. Defined.

Definition DEFAULT_PORT : Z := 7797.

(** What became of an inbound notification: a registered handler ran (and
    returned or threw), or no handler is registered for its method, in
    which case no code of the client runs. *)
Inductive Delivery : Type :=
| Handled (r : result unit)
| Unhandled.

(** How far an operation that waits for the environment has got: it has
    returned (or thrown), or it is still waiting for the port. *)
Inductive Completion : Type :=
| Returned (r : result unit)
| Waiting.

(** Inbound notifications of the backend. *)
Inductive Inbound : Type :=
| MorphProgress (params : RunAgentProgress.t)        (* morph/progress *)
| MorphChatProgress (progress : ChatAgentProgress).  (* morph/chat_progress *)

Definition method_of (n : Inbound) : string :=
  match n with
  | MorphProgress _ => "morph/progress"
  | MorphChatProgress _ => "morph/chat_progress"
  end.

(** ** The MorphLanguageClient class *)
Module MorphLanguageClient.

(** The fields of the object, followed by the part of the editor it acts
    on: the visible editors, the number of decoration types created so far
    and the signals its emitters have sent. *)
Record t : Type := mk {
  client : option LanguageClient.t;
  agents : JsMap.t Agent.t;
  morphNotifyChatCallback : ChatCallback;
  visibleTextEditors : list TextEditor;
  decorationTypes : nat;
  signals : list Signal
}.

Definition set_client (c : option LanguageClient.t) (this : t) : t :=
  mk c (agents this) (morphNotifyChatCallback this)
     (visibleTextEditors this) (decorationTypes this) (signals this).

Definition set_agents (m : JsMap.t Agent.t) (this : t) : t :=
  mk (client this) m (morphNotifyChatCallback this)
     (visibleTextEditors this) (decorationTypes this) (signals this).

Definition set_morphNotifyChatCallback (f : ChatCallback) (this : t) : t :=
  mk (client this) (agents this) f
     (visibleTextEditors this) (decorationTypes this) (signals this).

Definition set_visibleTextEditors (es : list TextEditor) (this : t) : t :=
  mk (client this) (agents this) (morphNotifyChatCallback this)
     es (decorationTypes this) (signals this).

Definition emit (ss : list Signal) (this : t) : t :=
  mk (client this) (agents this) (morphNotifyChatCallback this)
     (visibleTextEditors this) (decorationTypes this) (signals this ++ ss).

(** [vscode.window.createTextEditorDecorationType(...)]: a fresh handle. *)
Definition createTextEditorDecorationType (this : t) : TextEditorDecorationType * t :=
  (decorationTypes this,
   mk (client this) (agents this) (morphNotifyChatCallback this)
      (visibleTextEditors this) (S (decorationTypes this)) (signals this)).

(** The initial value of the [morphNotifyChatCallback] field. *)
Definition no_callback_set : ChatCallback :=
  λ _, Throw "no callback set".

(** The object as the field initialisers leave it, in an editor showing
    [editors]. *)
Definition new (editors : list TextEditor) : t :=
  mk None JsMap.empty no_callback_set editors 0 [].

(** [is_running()] *)
Definition is_running (this : t) : bool :=
  match client this with
  | Some c => bool_decide (LanguageClient.state c = Running)
  | None => false
  end.

(** The port poll of [create_client]: [checks] are the outcomes of the
    successive [tcpPortUsed.check(port)] calls.  The loop ends when a check
    finds the port in use, or throws (the check is awaited outside the
    [try]); what [waitUntilUsed] throws is caught and logged.  When the
    checks run out the poll has not ended. *)
Fixpoint poll (checks : list (result bool)) : option (result unit) :=
  match checks with
  | [] => None
  | Ok true :: _ => Some (Ok ())
  | Ok false :: rest => poll rest
  | Throw e :: _ => Some (Throw e)
  end.

(** [create_client()]; [checks] are the outcomes of the port checks and
    [start] is the outcome of [this.client.start()].  A client that exists
    and is not stopped is kept.  Otherwise the port is polled; once the
    server is detected a new client replaces the current one, and when its
    start succeeds [morph/progress] is routed to [morph_notify]. *)
Definition create_client (checks : list (result bool)) (start : result unit) (this : t)
    : Completion * t :=
  let live :=
    match client this with
    | Some c => bool_decide (LanguageClient.state c ≠ Stopped)
    | None => false
    end in
  if live then (Returned (Ok ()), this)
  else
    match poll checks with
    | None => (Waiting, this)
    | Some (Throw e) => (Returned (Throw e), this)
    | Some (Ok _) =>
        match start with
        | Throw e => (Returned (Throw e), set_client (Some LanguageClient.new) this)
        | Ok _ =>
            (Returned (Ok ()),
             set_client
               (Some (LanguageClient.onNotification "morph/progress" MorphNotify
                        LanguageClient.started)) this)
        end
    end.

(** [morph_notify(params)] *)
Definition morph_notify (params : RunAgentProgress.t) (this : t) : result unit * t :=
  if negb (is_running this) then
    (Throw "client not running, please wait...", this)
  else
    match JsMap.get (RunAgentProgress.id params) (agents this) with
    | None => (Throw "agent not found", this)
    | Some agent =>
        let '(agent, editors, fired) :=
          Agent.handleProgress agent params (visibleTextEditors this) in
        (Ok (),
         emit fired
           (set_visibleTextEditors editors
              (set_agents (JsMap.set (RunAgentProgress.id params) agent (agents this)) this)))
    end.

(** [run_agent(params)]; [response] is the outcome of the
    [morph/run_agent] request. *)
Definition run_agent (params : RunAgentParams.t) (response : result RunAgentResult.t)
    (this : t) : result JsValue * t :=
  match client this with
  | None =>
      (Throw ("waiting for a connection to rift-engine, please make sure the rift-engine is running on port "
              +:+ pretty DEFAULT_PORT), this)
  | Some c =>
      let this :=
        set_client (Some (LanguageClient.sendRequest "morph/run_agent"
                            (RunAgentPayload params) c)) this in
      match response with
      | Throw e => (Throw e, this)
      | Ok result =>
          let '(green, this) := createTextEditorDecorationType this in
          let agent :=
            Agent.new (RunAgentResult.id result) (RunAgentParams.position params)
                      (RunAgentParams.textDocument params) green in
          let agent := Agent.subscribe FireChangeLens agent in
          let this := set_agents (JsMap.set (RunAgentResult.id result) agent (agents this)) this in
          let this := emit [ChangeLenses] this in
          (Ok (JsString ("starting agent " +:+ pretty (RunAgentResult.id result) +:+ "...")), this)
      end
  end.

(** [run_agent_sync(params)] *)
Definition run_agent_sync (params : RunAgentParams.t) (response : result RunAgentSyncResult.t)
    (this : t) : result JsValue * t :=
  match client this with
  | None => (Throw "", this)
  | Some c =>
      let this :=
        set_client (Some (LanguageClient.sendRequest "morph/run_agent_sync"
                            (RunAgentPayload params) c)) this in
      match response with
      | Throw e => (Throw e, this)
      | Ok result =>
          let '(green, this) := createTextEditorDecorationType this in
          let agent :=
            Agent.new (RunAgentSyncResult.id result) (RunAgentParams.position params)
                      (RunAgentParams.textDocument params) green in
          let this := set_agents (JsMap.set (RunAgentSyncResult.id result) agent (agents this)) this in
          (Ok (JsString (RunAgentSyncResult.text result)), this)
      end
  end.

(** [run_chat(params, callback)]; [response] is the outcome of the
    [morph/run_chat] request. *)
Definition run_chat (params : RunChatParams.t) (callback : ChatCallback)
    (response : result unit) (this : t) : result JsValue * t :=
  match client this with
  | None => (Throw "", this)
  | Some c =>
      let this := set_morphNotifyChatCallback callback this in
      let c :=
        LanguageClient.onNotification "morph/chat_progress"
          (ChatCallbackHandler (morphNotifyChatCallback this)) c in
      let c := LanguageClient.sendRequest "morph/run_chat" (RunChatPayload params) c in
      let this := set_client (Some c) this in
      match response with
      | Throw e => (Throw e, this)
      | Ok _ => (Ok (JsString "starting..."), this)
      end
  end.

(** The commands [rift.cancel], [rift.accept] and [rift.reject]:
    [(id) => this.client?.sendNotification(method, { id })].  Nothing in
    the client awaits the promise: when the connection rejects the
    notification, the state is as it was. *)
Definition notify_backend (method : string) (id : Z) (this : t) : t :=
  match client this with
  | Some c =>
      match LanguageClient.sendNotification method (IdPayload id) c with
      | Ok c => set_client (Some c) this
      | Throw _ => this
      end
  | None => this
  end.

Definition rift_cancel : Z → t → t := notify_backend "morph/cancel".
Definition rift_accept : Z → t → t := notify_backend "morph/accept".
Definition rift_reject : Z → t → t := notify_backend "morph/reject".

(** An inbound notification reaching the connection: the handler
    registered for its method is called with it.  The client registers
    [morph_notify] only for [morph/progress] and chat callbacks only for
    [morph/chat_progress]. *)
Definition receive (n : Inbound) (this : t) : Delivery * t :=
  match client this with
  | None => (Unhandled, this)
  | Some c =>
      match LanguageClient.notificationHandlers c !! method_of n, n with
      | Some MorphNotify, MorphProgress params =>
          let '(r, this) := morph_notify params this in (Handled r, this)
      | Some (ChatCallbackHandler callback), MorphChatProgress progress =>
          (Handled (callback progress), this)
      | _, _ => (Unhandled, this)
      end
  end.

(** The lenses of one agent in [provideCodeLenses]. *)
Definition running_lens (r : Range) (agent : Agent.t) : AgentLens.t :=
  AgentLens.new r agent
    (Command.mk "running" "rift.cancel" "click to stop this agent" [Agent.id agent]).

Definition accept_lens (r : Range) (agent : Agent.t) : AgentLens.t :=
  AgentLens.new r agent
    (Command.mk "Accept ✅ " "rift.accept" "Accept the edits below" [Agent.id agent]).

Definition reject_lens (r : Range) (agent : Agent.t) : AgentLens.t :=
  AgentLens.new r agent
    (Command.mk " Reject ❌" "rift.reject"
       "Reject the edits below and restore the original text" [Agent.id agent]).

(** The loop of [provideCodeLenses] over [this.agents.values()], with the
    items pushed so far. *)
Fixpoint lenses_of (document : TextDocument) (agents : list Agent.t)
    (items : list AgentLens.t) : result (list AgentLens.t) :=
  match agents with
  | [] => Ok items
  | agent :: rest =>
      if bool_decide (uri (Agent.textDocument agent) = document_uri document) then
        match lineAt document (line (Agent.startPosition agent)) with
        | Throw e => Throw e
        | Ok linetext =>
            if decide (Agent.status agent = running) then
              lenses_of document rest (items ++ [running_lens (range linetext) agent])
            else if decide (Agent.status agent = done ∨ Agent.status agent = error) then
              lenses_of document rest
                (items ++ [accept_lens (range linetext) agent;
                           reject_lens (range linetext) agent])
            else lenses_of document rest items
        end
      else lenses_of document rest items
  end.

(** [provideCodeLenses(document, token)] *)
Definition provideCodeLenses (document : TextDocument) (this : t) : result (list AgentLens.t) :=
  lenses_of document (JsMap.values (agents this)) [].

(** Successive [run_agent] calls, each with the id the backend answers;
    returns, for every call, its result and the state right after it. *)
Fixpoint run_agent_calls (calls : list (RunAgentParams.t * Z)) (this : t)
    : list (result JsValue * t) :=
  match calls with
  | [] => []
  | (params, id) :: rest =>
      let '(r, this) := run_agent params (Ok (RunAgentResult.mk id)) this in
      (r, this) :: run_agent_calls rest this
  end.

End MorphLanguageClient.

(** ** Further operations of the client *)

(** [new vscode.SnippetString(value)] *)
Record SnippetString : Type := mkSnippetString { value : JsValue }.

(** [provideInlineCompletionItems(doc, position, context, token)];
    [response] is the outcome of the [morph/run_agent_sync] request. *)
Definition provideInlineCompletionItems (doc : TextDocument) (position : Position)
    (response : result RunAgentSyncResult.t) (this : MorphLanguageClient.t)
    : result SnippetString * MorphLanguageClient.t :=
  let params :=
    RunAgentParams.mk "complete the code" position
      (mkTextDocumentIdentifier (document_uri doc)) in
  match MorphLanguageClient.run_agent_sync params response this with
  | (Ok text, this) => (Ok (mkSnippetString text), this)
  | (Throw e, this) => (Throw e, this)
  end.

(** The connection library moving the current client to [newState]. *)
Definition enter_state (newState : State) (this : MorphLanguageClient.t)
    : MorphLanguageClient.t :=
  MorphLanguageClient.set_client
    (LanguageClient.enter newState <$> MorphLanguageClient.client this) this.

(** The current client entering [newState], followed by the listener that
    [create_client] passes to [onDidChangeState]; [dispose] is the outcome
    of [this.client?.dispose()], [checks] and [start] are those of the
    [create_client] that follows.  On a stop the client is disposed of and
    [create_client] runs again; a rejected [dispose()] ends the listener
    before that.  Without a client there is no listener to run. *)
Definition onDidChangeState (newState : State) (dispose : result unit)
    (checks : list (result bool)) (start : result unit) (this : MorphLanguageClient.t)
    : Completion * MorphLanguageClient.t :=
  match MorphLanguageClient.client this with
  | None => (Returned (Ok ()), this)
  | Some _ =>
      let this := enter_state newState this in
      if decide (newState = Stopped) then
        match dispose with
        | Throw e => (Returned (Throw e), this)
        | Ok _ => MorphLanguageClient.create_client checks start this
        end
      else (Returned (Ok ()), this)
  end.

(** Every session holds a decoration type that the editor has handed out,
    and no two sessions hold the same one. *)
Definition decorations_wf (this : MorphLanguageClient.t) : Prop :=
  Forall (λ agent, (Agent.green agent < MorphLanguageClient.decorationTypes this)%nat)
    (JsMap.values (MorphLanguageClient.agents this))
  ∧ NoDup (Agent.green <$> JsMap.values (MorphLanguageClient.agents this)).

#[global] Instance decorations_wf_dec (this : MorphLanguageClient.t) :
  Decision (decorations_wf this).
Proof. unfold decorations_wf. apply _. Defined.

(** The agents of the registry that belong to a document. *)
Definition agents_of (document : TextDocument) (this : MorphLanguageClient.t)
    : list Agent.t :=
  filter (λ agent, uri (Agent.textDocument agent) = document_uri document)
    (JsMap.values (MorphLanguageClient.agents this)).

(** ** The state store of the webview (stores.ts) *)
Module Stores.
Section Stores.
(** [WebviewState] is declared in [src/types], outside the sources at hand;
    the store treats it as an opaque value. *)
Context {WebviewState : Type}.

(** The [data] of a message event: [{ type, data }]. *)
Record Message : Type := mkMessage { type : string; data : WebviewState }.

(** The ['message'] listener of the store: the value held by the store
    after the message, and whether the listener threw. *)
Definition handler (event : Message) (current : WebviewState)
    : result unit * WebviewState :=
  if bool_decide (type event ≠ "stateUpdate") then
    (Throw ("Message passed to webview that is not stateUpdate: " +:+ type event), current)
  else (Ok (), data event).

(** Messages arriving one after the other, each handled on its own: the
    outcome of every message and the value the store ends with. *)
Fixpoint handle_all (events : list Message) (current : WebviewState)
    : list (result unit) * WebviewState :=
  match events with
  | [] => ([], current)
  | event :: rest =>
      let '(r, current) := handler event current in
      let '(rs, current) := handle_all rest current in
      (r :: rs, current)
  end.
End Stores.
End Stores.

(** ** Properties stated over the embedding *)

(** A registry is well formed when no key occurs twice and every entry is
    filed under the id of its agent. *)
Definition registry_wf (m : JsMap.t Agent.t) : Prop :=
  NoDup (JsMap.keys m) ∧ Forall (λ entry, Agent.id entry.2 = entry.1) m.

#[global] Instance registry_wf_dec (m : JsMap.t Agent.t) : Decision (registry_wf m).
Proof. unfold registry_wf. apply _. Defined.

(** What one agent contributes to the lenses of a document. *)
Definition lenses_for (document : TextDocument) (agent : Agent.t)
    : result (list AgentLens.t) :=
  if bool_decide (uri (Agent.textDocument agent) = document_uri document) then
    match lineAt document (line (Agent.startPosition agent)) with
    | Throw e => Throw e
    | Ok linetext =>
        Ok match Agent.status agent with
           | running => [MorphLanguageClient.running_lens (range linetext) agent]
           | done | error =>
               [MorphLanguageClient.accept_lens (range linetext) agent;
                MorphLanguageClient.reject_lens (range linetext) agent]
           | accepted | rejected => []
           end
    end
  else Ok [].

(** A notification carries a status that differs from [current]. *)
Definition status_differs (current : AgentStatus) (params : RunAgentProgress.t) : bool :=
  match RunAgentProgress.status params with
  | Some s => bool_decide (s ≠ current)
  | None => false
  end.

Definition is_StatusChange (s : Signal) : bool :=
  match s with StatusChange _ _ => true | ChangeLenses => false end.

(** How often the status-change emitter of a session fired. *)
Definition status_changes (fired : list Signal) : nat :=
  length (List.filter is_StatusChange fired).

(** The status of a session just before the [i]-th notification of a
    sequence delivered to it. *)
Definition status_before (this : Agent.t) (notifications : list RunAgentProgress.t)
    (editors : list TextEditor) (i : nat) : AgentStatus :=
  Agent.status (Agent.handleAll this (take i notifications) editors).1.1.

(** ** Scenario data *)

Definition a_py : TextDocument :=
  mkTextDocument "a.py" ["import sys"; ""; "def f(x):"; "    return x + 1"; ""; "print(f(2))"].

Definition a_py_id : TextDocumentIdentifier := mkTextDocumentIdentifier "a.py".

Definition fix_bug : RunAgentParams.t :=
  RunAgentParams.mk "fix bug" (mkPosition 3 0) a_py_id.

Definition progress (id : Z) (status : AgentStatus) (ranges : option (list Range))
    : RunAgentProgress.t :=
  RunAgentProgress.mk id a_py_id None None ranges (Some status).

Definition edited : list Range := [mkRange (mkPosition 3 0) (mkPosition 5 0)].

(** A client connected to the backend, in an editor showing [a.py]: the
    server is detected at the second port check and the start succeeds. *)
Definition connected : MorphLanguageClient.t :=
  (MorphLanguageClient.create_client [Ok false; Ok true] (Ok ())
     (MorphLanguageClient.new [mkTextEditor a_py ∅])).2.

(** A client whose connection has stopped. *)
Definition stopped (this : MorphLanguageClient.t) : MorphLanguageClient.t :=
  MorphLanguageClient.set_client
    (Some (LanguageClient.mk Stopped {[ "morph/progress" := MorphNotify ]} [] []))
    this.

Definition disconnected : MorphLanguageClient.t := stopped connected.

(** The connected client after one successful [run_agent] answered with
    id 1. *)
Definition one_agent : MorphLanguageClient.t :=
  (MorphLanguageClient.run_agent fix_bug (Ok (RunAgentResult.mk 1)) connected).2.

(** Agent 1 as [run_agent] creates it, and after the backend reported it
    done and then accepted. *)
Definition agent1 : Agent.t :=
  Agent.subscribe FireChangeLens (Agent.new 1 (mkPosition 3 0) a_py_id 0%nat).

(** Agent 2 as a second [run_agent] at the same position creates it. *)
Definition agent2 : Agent.t :=
  Agent.subscribe FireChangeLens (Agent.new 2 (mkPosition 3 0) a_py_id 1%nat).

Definition agent1_done : Agent.t :=
  (Agent.handleProgress agent1 (progress 1 done (Some edited)) []).1.1.

Definition agent1_accepted : Agent.t :=
  (Agent.handleProgress agent1_done (progress 1 accepted None) []).1.1.

(** Two agents started at the same position of [a.py]. *)
Definition two_agents : MorphLanguageClient.t :=
  (MorphLanguageClient.run_agent fix_bug (Ok (RunAgentResult.mk 2)) one_agent).2.

(** ** Agent sessions: status and ranges *)

Section AgentSession.
Variable this : Agent.t.
Variable params : RunAgentProgress.t.
Variable editors : list TextEditor.

Lemma handleProgress_status :
  Agent.status (Agent.handleProgress this params editors).1.1 =
  default (Agent.status this) (RunAgentProgress.status params).
Proof.
  unfold Agent.handleProgress.
  destruct (RunAgentProgress.status params) as [s|]; simpl.
  - destruct (decide (Agent.status this ≠ s)) as [Hne|Heq]; simpl.
    + by destruct (RunAgentProgress.ranges params).
    + apply dec_stable in Heq. by destruct (RunAgentProgress.ranges params).
  - by destruct (RunAgentProgress.ranges params).
Qed.

Lemma handleProgress_ranges :
  Agent.ranges (Agent.handleProgress this params editors).1.1 =
  default (Agent.ranges this) (RunAgentProgress.ranges params).
Proof.
  unfold Agent.handleProgress.
  destruct (RunAgentProgress.status params) as [s|]; simpl;
    [destruct (decide (Agent.status this ≠ s)); simpl|];
    by destruct (RunAgentProgress.ranges params).
Qed.

Lemma handleProgress_green :
  Agent.green (Agent.handleProgress this params editors).1.1 = Agent.green this.
Proof.
  unfold Agent.handleProgress.
  destruct (RunAgentProgress.status params) as [s|]; simpl;
    [destruct (decide (Agent.status this ≠ s)); simpl|];
    by destruct (RunAgentProgress.ranges params).
Qed.

Lemma handleProgress_id :
  Agent.id (Agent.handleProgress this params editors).1.1 = Agent.id this.
Proof.
  unfold Agent.handleProgress.
  destruct (RunAgentProgress.status params) as [s|]; simpl;
    [destruct (decide (Agent.status this ≠ s)); simpl|];
    by destruct (RunAgentProgress.ranges params).
Qed.

Lemma handleProgress_fired :
  (Agent.handleProgress this params editors).2 =
  if status_differs (Agent.status this) params
  then Agent.fire this (default (Agent.status this) (RunAgentProgress.status params))
  else [].
Proof.
  unfold Agent.handleProgress, status_differs.
  destruct (RunAgentProgress.status params) as [s|]; simpl; [|done].
  destruct (decide (Agent.status this ≠ s)) as [Hne|Heq]; simpl.
  - rewrite bool_decide_eq_true_2; [done | congruence].
  - apply dec_stable in Heq. rewrite bool_decide_eq_false_2; [done | congruence].
Qed.

Lemma handleProgress_editors :
  (Agent.handleProgress this params editors).1.2 =
  map (λ e, if bool_decide (document_uri (document e)
                            = uri (RunAgentProgress.textDocument params))
            then Agent.decorate (Agent.handleProgress this params editors).1.1 params e
            else e) editors.
Proof.
  unfold Agent.handleProgress.
  destruct (RunAgentProgress.status params) as [s|]; simpl;
    [destruct (decide (Agent.status this ≠ s)); simpl|]; done.
Qed.

End AgentSession.

(** C1, as stated, fails: agent 1 has reached [accepted] through a progress
    notification, and a later notification carrying [running] changes its
    status back to [running]. *)
Lemma terminal_status_overwritten :
  Agent.status agent1_accepted = accepted ∧
  Agent.status (Agent.handleProgress agent1_accepted (progress 1 running None) []).1.1
  = running.
Proof. split; reflexivity. Qed.

(** C1 (amended): once the status of a session is [accepted] or [rejected],
    the status after a later progress notification is the status that the
    notification carries; it is unchanged exactly when the notification
    carries no status or carries the current status again. *)
Theorem terminal_status_follows_notification
    (this : Agent.t) (params : RunAgentProgress.t) (editors : list TextEditor) :
  is_terminal (Agent.status this) = true →
  Agent.status (Agent.handleProgress this params editors).1.1
    = default (Agent.status this) (RunAgentProgress.status params)
  ∧ (Agent.status (Agent.handleProgress this params editors).1.1 = Agent.status this
     ↔ RunAgentProgress.status params = None
       ∨ RunAgentProgress.status params = Some (Agent.status this)).
Proof.
  intros _. rewrite handleProgress_status. split; [done|].
  destruct (RunAgentProgress.status params) as [s|]; simpl.
  - split; [intros ->; by right | intros [?|[= ->]]; done].
  - split; [by left | done].
Qed.

Lemma terminal_status_follows_notification_witness :
  is_terminal (Agent.status agent1_accepted) = true
  ∧ Agent.status (Agent.handleProgress agent1_accepted (progress 1 accepted None) []).1.1
    = accepted.
Proof.
  split; [reflexivity|].
  destruct (terminal_status_follows_notification
              agent1_accepted (progress 1 accepted None) [] eq_refl) as [Hstatus _].
  exact Hstatus.
Defined.

(** C2, as stated, fails: agent 1 holds the range reported with [done];
    after the notification carrying [accepted] is handled, the range set of
    the session still holds that range. *)
Lemma accepted_session_keeps_ranges :
  RunAgentProgress.status (progress 1 accepted None) = Some accepted ∧
  Agent.ranges (Agent.handleProgress agent1_done (progress 1 accepted None) []).1.1
  = [mkRange (mkPosition 3 0) (mkPosition 5 0)].
Proof. split; reflexivity. Qed.

(** C2 (amended): after a progress notification whose status is [accepted]
    or [rejected] is handled, every visible editor showing the document of
    the notification has no range left decorated for the session (the
    editors and their documents are otherwise the same); the range set
    stored in the session is not emptied: it is the one carried by the
    notification if there is one, and the previous one otherwise. *)
Theorem terminal_progress_clears_decorations
    (this : Agent.t) (params : RunAgentProgress.t) (editors : list TextEditor) :
  RunAgentProgress.status params = Some accepted
  ∨ RunAgentProgress.status params = Some rejected →
  map document (Agent.handleProgress this params editors).1.2 = map document editors
  ∧ (∀ e, e ∈ (Agent.handleProgress this params editors).1.2 →
          document_uri (document e) = uri (RunAgentProgress.textDocument params) →
          decorated (Agent.green this) e = [])
  ∧ Agent.ranges (Agent.handleProgress this params editors).1.1
    = default (Agent.ranges this) (RunAgentProgress.ranges params).
Proof.
  intros Hterminal.
  rewrite handleProgress_editors, handleProgress_ranges.
  split; [|split; [|done]].
  - rewrite <- list.list_fmap_compose. apply list_fmap_ext. intros i e _. simpl.
    case_bool_decide; [|done].
    unfold Agent.decorate. rewrite bool_decide_eq_true_2 by done. done.
  - intros e' [e [-> He]]%list_elem_of_fmap Huri.
    case_bool_decide as Hdoc.
    + unfold Agent.decorate. rewrite bool_decide_eq_true_2 by done.
      unfold decorated, setDecorations. simpl.
      rewrite handleProgress_green. by rewrite lookup_insert_eq.
    + done.
Qed.

Lemma terminal_progress_clears_decorations_witness :
  (RunAgentProgress.status (progress 1 accepted None) = Some accepted
   ∨ RunAgentProgress.status (progress 1 accepted None) = Some rejected)
  ∧ ∀ e, e ∈ (Agent.handleProgress agent1_done (progress 1 accepted None)
                [mkTextEditor a_py {[ 0%nat := edited ]}]).1.2 →
         document_uri (document e) = "a.py" →
         decorated 0%nat e = [].
Proof.
  split; [left; reflexivity|].
  destruct (terminal_progress_clears_decorations agent1_done (progress 1 accepted None)
              [mkTextEditor a_py {[ 0%nat := edited ]}] (or_introl eq_refl))
    as (_ & Hcleared & _).
  exact Hcleared.
Defined.

(** C4: after a progress notification that carries a [ranges] field is
    handled, the range set of the session is exactly the one carried by the
    notification, whatever the session held before. *)
Theorem progress_ranges_replace
    (this : Agent.t) (params : RunAgentProgress.t) (editors : list TextEditor)
    (rs : list Range) :
  RunAgentProgress.ranges params = Some rs →
  Agent.ranges (Agent.handleProgress this params editors).1.1 = rs.
Proof. intros Hrs. by rewrite handleProgress_ranges, Hrs. Qed.

Lemma progress_ranges_replace_witness :
  RunAgentProgress.ranges
    (progress 1 done (Some [mkRange (mkPosition 7 0) (mkPosition 8 2)]))
  = Some [mkRange (mkPosition 7 0) (mkPosition 8 2)]
  ∧ Agent.ranges agent1_done = edited
  ∧ Agent.ranges
      (Agent.handleProgress agent1_done
         (progress 1 done (Some [mkRange (mkPosition 7 0) (mkPosition 8 2)])) []).1.1
    = [mkRange (mkPosition 7 0) (mkPosition 8 2)].
Proof.
  split; [reflexivity|]. split; [reflexivity|].
  apply (progress_ranges_replace agent1_done
           (progress 1 done (Some [mkRange (mkPosition 7 0) (mkPosition 8 2)])) []).
  reflexivity.
Defined.

(** ** Agent sessions: the status-change signal *)

Lemma handleAll_cons (this : Agent.t) (params : RunAgentProgress.t)
    (rest : list RunAgentProgress.t) (editors : list TextEditor) :
  Agent.handleAll this (params :: rest) editors =
  let first := Agent.handleProgress this params editors in
  let others := Agent.handleAll first.1.1 rest first.1.2 in
  (others.1.1, others.1.2, first.2 ++ others.2).
Proof.
  simpl. destruct (Agent.handleProgress this params editors) as [[this' editors'] fired].
  simpl. by destruct (Agent.handleAll this' rest editors') as [[? ?] ?].
Qed.

Lemma status_changes_app (xs ys : list Signal) :
  status_changes (xs ++ ys) = (status_changes xs + status_changes ys)%nat.
Proof. unfold status_changes. by rewrite List.filter_app, length_app. Qed.

Lemma status_changes_fire (this : Agent.t) (s : AgentStatus) :
  status_changes (Agent.fire this s) = 1%nat.
Proof.
  unfold status_changes, Agent.fire. simpl. f_equal.
  induction (Agent.onStatusChange this) as [|[] ls IH]; [done|]. simpl. exact IH.
Qed.

Lemma status_changes_handleProgress (this : Agent.t) (params : RunAgentProgress.t)
    (editors : list TextEditor) :
  status_changes (Agent.handleProgress this params editors).2
  = if status_differs (Agent.status this) params then 1%nat else 0%nat.
Proof.
  rewrite handleProgress_fired.
  destruct (status_differs (Agent.status this) params); [apply status_changes_fire | done].
Qed.

Lemma filter_length_shift (f : nat → bool) (n : nat) :
  length (List.filter f (seq 1 n)) = length (List.filter (λ i, f (S i)) (seq 0 n)).
Proof.
  rewrite <- seq_shift. generalize (seq 0 n) as l.
  induction l as [|i l IH]; [done|]. simpl. destruct (f (S i)); simpl; by rewrite IH.
Qed.

(** C6: a progress notification makes the status-change signal of the
    session fire once when it carries a status different from the current
    one and not at all otherwise; over a sequence of notifications the
    signal fires as many times as there are notifications whose status
    differs from the status the session has when they arrive. *)
Theorem status_signal_once_per_change
    (this : Agent.t) (notifications : list RunAgentProgress.t) (editors : list TextEditor) :
  (∀ params,
     status_changes (Agent.handleProgress this params editors).2
     = if status_differs (Agent.status this) params then 1%nat else 0%nat)
  ∧ status_changes (Agent.handleAll this notifications editors).2
    = length
        (List.filter
           (λ i, match notifications !! i with
                 | Some params =>
                     status_differs (status_before this notifications editors i) params
                 | None => false
                 end)
           (seq 0 (length notifications))).
Proof.
  split; [intros params; apply status_changes_handleProgress|].
  revert this editors.
  induction notifications as [|params rest IH]; intros this editors; [done|].
  rewrite handleAll_cons. cbn [snd]. rewrite status_changes_app.
  rewrite status_changes_handleProgress, IH.
  cbn [length seq List.filter lookup list_lookup].
  unfold status_before at 2. cbn [take Agent.handleAll fst].
  assert (Hshift :
    ∀ i, match (params :: rest) !! S i with
         | Some p => status_differs (status_before this (params :: rest) editors (S i)) p
         | None => false
         end
         = match rest !! i with
           | Some p =>
               status_differs
                 (status_before (Agent.handleProgress this params editors).1.1 rest
                    (Agent.handleProgress this params editors).1.2 i) p
           | None => false
           end).
  { intros i. cbn [lookup list_lookup]. unfold status_before. cbn [take].
    by rewrite handleAll_cons. }
  destruct (status_differs (Agent.status this) params); cbn [length];
    rewrite filter_length_shift, (List.filter_ext _ _ Hshift); done.
Qed.

(** ** Routing of progress notifications *)

Import MorphLanguageClient.

Lemma morph_notify_not_running (params : RunAgentProgress.t) (this : t) :
  is_running this = false →
  morph_notify params this = (Throw "client not running, please wait...", this).
Proof. intros Hrun. unfold morph_notify. by rewrite Hrun. Qed.

(** C3, as stated, fails: with the connection stopped and an empty
    registry, a progress notification for id 42 is refused with the
    not-running error, which is not the routing error. *)
Lemma unknown_id_while_disconnected :
  JsMap.get 42 (agents disconnected) = None
  ∧ (morph_notify (progress 42 running None) disconnected).1
    = Throw "client not running, please wait..."
  ∧ (morph_notify (progress 42 running None) disconnected).1 ≠ Throw "agent not found".
Proof. split; [reflexivity|]. split; [reflexivity|]. discriminate. Qed.

(** C3 (amended): a progress notification whose id is not a key of the
    registry always makes the inbound handler raise an error and leaves the
    registry, like the rest of the state, as it was: the error is the
    routing error "agent not found" when the client is running, and the
    not-running error otherwise. *)
Theorem unknown_id_raises (params : RunAgentProgress.t) (this : t) :
  JsMap.get (RunAgentProgress.id params) (agents this) = None →
  morph_notify params this
  = (Throw (if is_running this then "agent not found"
            else "client not running, please wait..."), this).
Proof.
  intros Hnone. unfold morph_notify.
  destruct (is_running this); simpl; [by rewrite Hnone | done].
Qed.

Lemma unknown_id_raises_witness :
  JsMap.get 42 (agents connected) = None
  ∧ morph_notify (progress 42 running None) connected
    = (Throw "agent not found", connected).
Proof.
  split; [reflexivity|].
  exact (unknown_id_raises (progress 42 running None) connected eq_refl).
Defined.

(** C10: while the client connection exists but is not in the Running
    state, the inbound progress handler raises the not-running error,
    whatever the registry holds, and leaves the whole state, hence the
    registry and every session in it, as it was. *)
Theorem progress_refused_unless_running
    (params : RunAgentProgress.t) (this : t) (c : LanguageClient.t) :
  client this = Some c →
  LanguageClient.state c ≠ Running →
  morph_notify params this = (Throw "client not running, please wait...", this)
  ∧ ∀ registry : JsMap.t Agent.t,
      (morph_notify params (set_agents registry this)).1
      = Throw "client not running, please wait...".
Proof.
  intros Hclient Hstate.
  assert (Hrun : ∀ registry, is_running (set_agents registry this) = false).
  { intros registry. unfold is_running. simpl. rewrite Hclient.
    by apply bool_decide_eq_false_2. }
  split.
  - apply morph_notify_not_running. unfold is_running. rewrite Hclient.
    by apply bool_decide_eq_false_2.
  - intros registry. by rewrite morph_notify_not_running.
Qed.

Lemma progress_refused_unless_running_witness :
  client (stopped one_agent)
  = Some (LanguageClient.mk Stopped {[ "morph/progress" := MorphNotify ]} [] [])
  ∧ Stopped ≠ Running
  ∧ morph_notify (progress 1 done (Some edited)) (stopped one_agent)
    = (Throw "client not running, please wait...", stopped one_agent).
Proof.
  split; [reflexivity|]. split; [discriminate|].
  destruct (progress_refused_unless_running (progress 1 done (Some edited))
              (stopped one_agent)
              (LanguageClient.mk Stopped {[ "morph/progress" := MorphNotify ]} [] [])
              eq_refl ltac:(discriminate)) as [Hrefused _].
  exact Hrefused.
Defined.

(** ** The cancel, accept and reject commands *)

(** What handing a notification to the connection changes. *)
Lemma notify_backend_effect (method : string) (id : Z) (this : t) :
  let after := notify_backend method id this in
  agents after = agents this
  ∧ visibleTextEditors after = visibleTextEditors this
  ∧ decorationTypes after = decorationTypes this
  ∧ signals after = signals this
  ∧ morphNotifyChatCallback after = morphNotifyChatCallback this
  ∧ LanguageClient.state <$> client after = LanguageClient.state <$> client this
  ∧ LanguageClient.notificationHandlers <$> client after
    = LanguageClient.notificationHandlers <$> client this
  ∧ match client this with
    | None => client after = None
    | Some c =>
        match LanguageClient.state c with
        | Running =>
            LanguageClient.sent <$> client after
            = Some (LanguageClient.sent c ++ [Notification method (IdPayload id)])
            ∧ LanguageClient.pending <$> client after = Some (LanguageClient.pending c)
        | Starting =>
            LanguageClient.sent <$> client after = Some (LanguageClient.sent c)
            ∧ LanguageClient.pending <$> client after
              = Some (LanguageClient.pending c ++ [Notification method (IdPayload id)])
        | Stopped => after = this
        end
    end.
Proof.
  unfold notify_backend, LanguageClient.sendNotification.
  destruct (client this) as [c|] eqn:Hclient; simpl; [|by rewrite Hclient].
  destruct (LanguageClient.state c) eqn:Hstate; simpl;
    rewrite ?Hclient; simpl; rewrite ?Hstate; done.
Qed.

(** C9: each of the commands [rift.cancel], [rift.accept] and [rift.reject]
    leaves the local state as it was: the registry, with the status and
    the ranges of every session, the visible editors, the chat callback
    and the emitted signals are the same before and after, and so are the
    state and the handlers of the connection.  All that a command does is
    hand one notification carrying the id to the connection: a running
    connection sends it, a starting one holds it until its start is
    complete, a stopped one refuses it and sends nothing; without a
    connection nothing happens. *)
Theorem commands_only_notify (id : Z) (this : t) :
  Forall
    (λ entry : (Z → t → t) * string,
       let after := entry.1 id this in
       agents after = agents this
       ∧ visibleTextEditors after = visibleTextEditors this
       ∧ decorationTypes after = decorationTypes this
       ∧ signals after = signals this
       ∧ morphNotifyChatCallback after = morphNotifyChatCallback this
       ∧ LanguageClient.state <$> client after = LanguageClient.state <$> client this
       ∧ LanguageClient.notificationHandlers <$> client after
         = LanguageClient.notificationHandlers <$> client this
       ∧ match client this with
         | None => client after = None
         | Some c =>
             match LanguageClient.state c with
             | Running =>
                 LanguageClient.sent <$> client after
                 = Some (LanguageClient.sent c ++ [Notification entry.2 (IdPayload id)])
                 ∧ LanguageClient.pending <$> client after
                   = Some (LanguageClient.pending c)
             | Starting =>
                 LanguageClient.sent <$> client after = Some (LanguageClient.sent c)
                 ∧ LanguageClient.pending <$> client after
                   = Some (LanguageClient.pending c
                           ++ [Notification entry.2 (IdPayload id)])
             | Stopped => after = this
             end
         end)
    [(rift_cancel, "morph/cancel"); (rift_accept, "morph/accept");
     (rift_reject, "morph/reject")].
Proof.
  repeat (apply Forall_cons; split; [apply notify_backend_effect|]).
  apply Forall_nil. done.
Qed.

(** ** Chat progress *)

(** C7: the code departs from the claim.  However [create_client] went on
    a fresh client (the server detected and the start succeeded, the start
    failed, or the port still polled), before any [run_chat] no handler is
    registered for [morph/chat_progress]: a chat-progress notification
    reaches no code of the client, the callback that throws
    "no callback set" is not called, and the state is unchanged. *)
Theorem chat_progress_before_run_chat_unhandled
    (editors : list TextEditor) (checks : list (result bool)) (start : result unit)
    (progress : ChatAgentProgress) :
  let this := (create_client checks start (new editors)).2 in
  morphNotifyChatCallback this progress = Throw "no callback set"
  ∧ receive (MorphChatProgress progress) this = (Unhandled, this).
Proof.
  unfold create_client. simpl.
  destruct (poll checks) as [[[]|e]|]; [destruct start as [[]|e]| |]; split; reflexivity.
Qed.

(** ** The registry as a JavaScript map *)

Section Registry.
Context {V : Type}.
Implicit Types (m : JsMap.t V) (k : Z) (v : V).

Lemma get_set_eq k v m : JsMap.get k (JsMap.set k v m) = Some v.
Proof.
  induction m as [|[k' v'] m IH]; simpl.
  - by rewrite decide_True.
  - destruct (decide (k = k')) as [->|Hne]; simpl.
    + by rewrite decide_True.
    + by rewrite decide_False.
Qed.

Lemma get_set_ne k k' v m : k ≠ k' → JsMap.get k' (JsMap.set k v m) = JsMap.get k' m.
Proof.
  intros Hne. induction m as [|[k0 v0] m IH]; simpl.
  - by rewrite decide_False.
  - destruct (decide (k = k0)) as [->|Hne0]; simpl.
    + by rewrite !decide_False.
    + by rewrite IH.
Qed.

Lemma elem_of_keys_set k k' v m :
  k' ∈ JsMap.keys (JsMap.set k v m) ↔ k' = k ∨ k' ∈ JsMap.keys m.
Proof.
  unfold JsMap.keys. induction m as [|[k0 v0] m IH]; simpl.
  - rewrite list_elem_of_singleton, elem_of_nil. tauto.
  - destruct (decide (k = k0)) as [->|Hne]; simpl.
    + rewrite !elem_of_cons. tauto.
    + rewrite !elem_of_cons, IH. tauto.
Qed.

Lemma NoDup_keys_set k v m :
  NoDup (JsMap.keys m) → NoDup (JsMap.keys (JsMap.set k v m)).
Proof.
  induction m as [|[k0 v0] m IH]; simpl.
  - intros _. apply NoDup_singleton.
  - intros [Hnotin Hm]%NoDup_cons.
    destruct (decide (k = k0)) as [->|Hne]; simpl.
    + by apply NoDup_cons.
    + apply NoDup_cons. split; [|by apply IH].
      fold (JsMap.keys (JsMap.set k v m)). rewrite elem_of_keys_set.
      intros [?|?]; [congruence | done].
Qed.

Lemma Forall_set (P : Z * V → Prop) k v m :
  P (k, v) → Forall P m → Forall P (JsMap.set k v m).
Proof.
  intros Hkv. induction 1 as [|[k0 v0] m H0 Hm IH]; simpl.
  - by repeat constructor.
  - destruct (decide (k = k0)); by constructor.
Qed.

Lemma get_Some_elem_of k v m : JsMap.get k m = Some v → (k, v) ∈ m.
Proof.
  induction m as [|[k0 v0] m IH]; simpl; [done|].
  destruct (decide (k = k0)) as [->|Hne].
  - intros [= ->]. apply list_elem_of_here.
  - intros Hget. apply list_elem_of_further. by apply IH.
Qed.

End Registry.

Lemma registry_wf_empty : registry_wf JsMap.empty.
Proof. split; [apply NoDup_nil_2 | constructor]. Qed.

Lemma registry_wf_set (k : Z) (agent : Agent.t) (m : JsMap.t Agent.t) :
  Agent.id agent = k → registry_wf m → registry_wf (JsMap.set k agent m).
Proof.
  intros Hid [Hkeys Hids]. split; [by apply NoDup_keys_set | by apply Forall_set].
Qed.

Lemma registry_wf_ids (m : JsMap.t Agent.t) :
  registry_wf m → Agent.id <$> JsMap.values m = JsMap.keys m.
Proof.
  intros [_ Hids]. unfold JsMap.values, JsMap.keys.
  induction Hids as [|[k a] m Hka Hm IH]; [done|].
  cbn [map]. rewrite fmap_cons, IH. simpl in *. by f_equal.
Qed.

Lemma registry_wf_NoDup_ids (m : JsMap.t Agent.t) :
  registry_wf m → NoDup (Agent.id <$> JsMap.values m).
Proof. intros Hwf. rewrite registry_wf_ids by done. apply Hwf. Qed.

(** ** Starting agents *)

Lemma run_agent_success (params : RunAgentParams.t) (id : Z) (this : t) :
  client this ≠ None →
  registry_wf (agents this) →
  let outcome := run_agent params (Ok (RunAgentResult.mk id)) this in
  outcome.1 = Ok (JsString ("starting agent " +:+ pretty id +:+ "..."))
  ∧ client outcome.2 ≠ None
  ∧ registry_wf (agents outcome.2)
  ∧ JsMap.get id (agents outcome.2)
    = Some (Agent.mk id (RunAgentParams.position params)
              (RunAgentParams.textDocument params) running (decorationTypes this)
              [] [FireChangeLens]).
Proof.
  intros Hclient Hwf. unfold run_agent.
  destruct (client this) as [c|] eqn:Hc; [|done]. simpl.
  split; [done|]. split; [done|]. split.
  - by apply registry_wf_set.
  - apply get_set_eq.
Qed.

(** C5, as stated, fails on its last part: what the caller of [run_agent]
    gets back is the message "starting agent 1...", a string, and not the
    id 1 that the backend answered. *)
Lemma run_agent_returns_message :
  (run_agent fix_bug (Ok (RunAgentResult.mk 1)) connected).1
  = Ok (JsString "starting agent 1...")
  ∧ (run_agent fix_bug (Ok (RunAgentResult.mk 1)) connected).1 ≠ Ok (JsNumber 1).
Proof. split; [reflexivity | discriminate]. Qed.

(** C5 (amended): over any sequence of successful [run_agent] calls on a
    connected client with a well-formed registry, after every call no two
    registry entries share an id, the registry holds under the id answered
    by the backend a new session with status [running], anchored at the
    position and document of the call, with no ranges, and the result seen
    by the caller is the message "starting agent <id>...", which embeds
    the id. *)
Theorem run_agent_calls_register (calls : list (RunAgentParams.t * Z)) (this : t) :
  client this ≠ None →
  registry_wf (agents this) →
  Forall2
    (λ (call : RunAgentParams.t * Z) (outcome : result JsValue * t),
       outcome.1 = Ok (JsString ("starting agent " +:+ pretty call.2 +:+ "..."))
       ∧ NoDup (Agent.id <$> JsMap.values (agents outcome.2))
       ∧ ∃ green,
           JsMap.get call.2 (agents outcome.2)
           = Some (Agent.mk call.2 (RunAgentParams.position call.1)
                     (RunAgentParams.textDocument call.1) running green
                     [] [FireChangeLens]))
    calls (run_agent_calls calls this).
Proof.
  revert this. induction calls as [|[params id] rest IH]; intros this Hclient Hwf.
  - constructor.
  - cbn [run_agent_calls].
    destruct (run_agent_success params id this Hclient Hwf)
      as (Hresult & Hclient' & Hwf' & Hget).
    destruct (run_agent params (Ok (RunAgentResult.mk id)) this) as [r this'] eqn:Hrun.
    simpl in *. constructor.
    + simpl. split; [done|]. split; [by apply registry_wf_NoDup_ids | by eexists].
    + by apply IH.
Qed.

Lemma run_agent_calls_register_witness :
  client connected ≠ None
  ∧ registry_wf (agents connected)
  ∧ Forall2
      (λ (call : RunAgentParams.t * Z) (outcome : result JsValue * t),
         outcome.1 = Ok (JsString ("starting agent " +:+ pretty call.2 +:+ "..."))
         ∧ NoDup (Agent.id <$> JsMap.values (agents outcome.2))
         ∧ ∃ green,
             JsMap.get call.2 (agents outcome.2)
             = Some (Agent.mk call.2 (RunAgentParams.position call.1)
                       (RunAgentParams.textDocument call.1) running green
                       [] [FireChangeLens]))
      [(fix_bug, 1); (fix_bug, 2)]
      (run_agent_calls [(fix_bug, 1); (fix_bug, 2)] connected).
Proof.
  split; [discriminate|]. split; [exact registry_wf_empty|].
  apply (run_agent_calls_register [(fix_bug, 1); (fix_bug, 2)] connected).
  - discriminate.
  - exact registry_wf_empty.
Defined.

(** ** Code lenses *)

Lemma lenses_of_cons (document : TextDocument) (agent : Agent.t)
    (rest : list Agent.t) (items : list AgentLens.t) :
  lenses_of document (agent :: rest) items
  = match lenses_for document agent with
    | Throw e => Throw e
    | Ok ls => lenses_of document rest (items ++ ls)
    end.
Proof.
  unfold lenses_for. cbn [lenses_of].
  case_bool_decide; [|by rewrite app_nil_r].
  destruct (lineAt document (line (Agent.startPosition agent))) as [linetext|e]; [|done].
  destruct (Agent.status agent) eqn:Hstatus; simpl;
    repeat (case_decide; try done; try (exfalso; intuition congruence));
    by rewrite ?app_nil_r.
Qed.

Lemma lenses_for_id (document : TextDocument) (agent : Agent.t) (ls : list AgentLens.t) :
  lenses_for document agent = Ok ls →
  Forall (λ lens, AgentLens.id lens = Agent.id agent) ls.
Proof.
  unfold lenses_for. case_bool_decide; [|intros [= <-]; constructor].
  destruct (lineAt document (line (Agent.startPosition agent))); [|done].
  intros [= <-]. destruct (Agent.status agent); repeat constructor.
Qed.

Lemma filter_id_all (k : Z) (ls : list AgentLens.t) :
  Forall (λ lens, AgentLens.id lens = k) ls →
  filter (λ lens, AgentLens.id lens = k) ls = ls.
Proof.
  induction 1 as [|lens ls Hlens Hls IH]; [done|].
  by rewrite filter_cons_True, IH.
Qed.

Lemma filter_id_none (k : Z) (ls : list AgentLens.t) :
  Forall (λ lens, AgentLens.id lens ≠ k) ls →
  filter (λ lens, AgentLens.id lens = k) ls = [].
Proof.
  induction 1 as [|lens ls Hlens Hls IH]; [done|].
  by rewrite filter_cons_False.
Qed.

(** The lenses computed for a list of agents with distinct ids: appended
    to the items so far, they all belong to agents of the list, and those
    of one agent are its own contribution. *)
Lemma lenses_of_Ok (document : TextDocument) (agents : list Agent.t)
    (items out : list AgentLens.t) :
  lenses_of document agents items = Ok out →
  ∃ added,
    out = items ++ added
    ∧ Forall (λ lens, AgentLens.id lens ∈ Agent.id <$> agents) added
    ∧ (NoDup (Agent.id <$> agents) →
       ∀ agent, agent ∈ agents →
         ∃ ls, lenses_for document agent = Ok ls
               ∧ filter (λ lens, AgentLens.id lens = Agent.id agent) added = ls).
Proof.
  revert items out.
  induction agents as [|first rest IH]; intros items out.
  - intros [= <-]. exists []. rewrite app_nil_r. split; [done|]. split; [constructor|].
    intros _ agent Hin. by apply elem_of_nil in Hin.
  - rewrite lenses_of_cons.
    destruct (lenses_for document first) as [ls|e] eqn:Hfirst; [|done].
    intros (added & -> & Hids & Hown)%IH.
    pose proof (lenses_for_id _ _ _ Hfirst) as Hls.
    exists (ls ++ added). split; [by rewrite app_assoc|]. split.
    + rewrite fmap_cons. apply Forall_app. split.
      * eapply Forall_impl; [exact Hls|]. intros lens ->. apply list_elem_of_here.
      * eapply Forall_impl; [exact Hids|]. intros lens Hin. by apply list_elem_of_further.
    + rewrite fmap_cons. intros [Hfresh Hnodup]%NoDup_cons agent Hin.
      rewrite filter_app.
      apply elem_of_cons in Hin as [->|Hin].
      * exists ls. split; [done|].
        rewrite (filter_id_all _ _ Hls), (filter_id_none _ added), app_nil_r; [done|].
        eapply Forall_impl; [exact Hids|]. intros lens Hlens Heq.
        apply Hfresh. by rewrite <- Heq.
      * destruct (Hown Hnodup agent Hin) as (ls' & Hagent & Hfilter).
        exists ls'. split; [done|].
        rewrite (filter_id_none _ ls), Hfilter; [done|].
        eapply Forall_impl; [exact Hls|]. intros lens -> Heq.
        apply Hfresh. rewrite Heq. by apply list_elem_of_fmap_2.
Qed.

(** The lens computation returns when every agent of the document is
    anchored at a line that the document has. *)
Lemma provideCodeLenses_returns (document : TextDocument) (this : t) :
  (∀ agent, agent ∈ JsMap.values (agents this) →
            uri (Agent.textDocument agent) = document_uri document →
            (line (Agent.startPosition agent) < length (lines document))%nat) →
  ∃ items, provideCodeLenses document this = Ok items.
Proof.
  unfold provideCodeLenses. generalize (@nil AgentLens.t) as items.
  induction (JsMap.values (agents this)) as [|first rest IH]; intros items Hlines.
  - by eexists.
  - rewrite lenses_of_cons.
    assert (∃ ls, lenses_for document first = Ok ls) as [ls ->].
    { unfold lenses_for. case_bool_decide as Huri; [|by eexists].
      destruct (lookup_lt_is_Some_2 (lines document) (line (Agent.startPosition first)))
        as [s Hs]; [apply Hlines; [apply list_elem_of_here | done]|].
      unfold lineAt. rewrite Hs. by eexists. }
    apply IH. intros agent Hin. apply Hlines. by apply list_elem_of_further.
Qed.




(** ** Well-formedness of the registry is kept by every operation *)

Lemma morph_notify_registry_wf (params : RunAgentProgress.t) (this : t) :
  registry_wf (agents this) → registry_wf (agents (morph_notify params this).2).
Proof.
  intros Hwf. unfold morph_notify.
  destruct (is_running this); simpl; [|done].
  destruct (JsMap.get (RunAgentProgress.id params) (agents this)) as [agent|] eqn:Hget;
    [|done].
  pose proof (handleProgress_id agent params (visibleTextEditors this)) as Hid.
  destruct (Agent.handleProgress agent params (visibleTextEditors this))
    as [[agent' editors'] fired].
  simpl in *. apply registry_wf_set; [|done].
  rewrite Hid. apply get_Some_elem_of in Hget.
  destruct Hwf as [_ Hids]. rewrite Forall_forall in Hids. exact (Hids _ Hget).
Qed.

Lemma run_agent_registry_wf (params : RunAgentParams.t)
    (response : result RunAgentResult.t) (this : t) :
  registry_wf (agents this) → registry_wf (agents (run_agent params response this).2).
Proof.
  intros Hwf. unfold run_agent.
  destruct (client this); [|done]. destruct response; [|done].
  simpl. by apply registry_wf_set.
Qed.

Lemma run_agent_sync_registry_wf (params : RunAgentParams.t)
    (response : result RunAgentSyncResult.t) (this : t) :
  registry_wf (agents this) → registry_wf (agents (run_agent_sync params response this).2).
Proof.
  intros Hwf. unfold run_agent_sync.
  destruct (client this); [|done]. destruct response; [|done].
  simpl. by apply registry_wf_set.
Qed.

Lemma run_chat_agents (params : RunChatParams.t) (callback : ChatCallback)
    (response : result unit) (this : t) :
  agents (run_chat params callback response this).2 = agents this.
Proof.
  unfold run_chat. destruct (client this); [|done]. by destruct response.
Qed.

(** Once [run_chat] has run, chat progress reaches the callback it was
    given. *)
Lemma chat_progress_after_run_chat (params : RunChatParams.t) (callback : ChatCallback)
    (response : result unit) (this : t) (progress : ChatAgentProgress) :
  client this ≠ None →
  (receive (MorphChatProgress progress) (run_chat params callback response this).2).1
  = Handled (callback progress).
Proof.
  intros Hclient. unfold run_chat.
  destruct (client this) as [c|]; [|done].
  destruct response; unfold receive; simpl; by rewrite lookup_insert_eq.
Qed.

(** ** Further properties of agent sessions *)

Lemma handleProgress_anchor
    (this : Agent.t) (params : RunAgentProgress.t) (editors : list TextEditor) :
  Agent.startPosition (Agent.handleProgress this params editors).1.1
  = Agent.startPosition this
  ∧ Agent.textDocument (Agent.handleProgress this params editors).1.1
    = Agent.textDocument this.
Proof.
  unfold Agent.handleProgress.
  destruct (RunAgentProgress.status params) as [s|]; simpl;
    [destruct (decide (Agent.status this ≠ s)); simpl|];
    by destruct (RunAgentProgress.ranges params).
Qed.

Lemma decorate_other_type (this : Agent.t) (params : RunAgentProgress.t)
    (e : TextEditor) (g : TextEditorDecorationType) :
  g ≠ Agent.green this →
  decorated g (Agent.decorate this params e) = decorated g e.
Proof.
  intros Hg. unfold Agent.decorate.
  case_bool_decide; [|destruct (RunAgentProgress.ranges params)];
    unfold decorated, setDecorations; simpl; try done;
    rewrite lookup_insert_ne; done.
Qed.

Lemma handleProgress_other_decorations
    (this : Agent.t) (params : RunAgentProgress.t) (editors : list TextEditor)
    (g : TextEditorDecorationType) :
  g ≠ Agent.green this →
  decorated g <$> (Agent.handleProgress this params editors).1.2
  = decorated g <$> editors.
Proof.
  intros Hg. rewrite handleProgress_editors, <- list_fmap_compose.
  apply list_fmap_ext. intros i e _. simpl.
  case_bool_decide; [|done].
  apply decorate_other_type. by rewrite handleProgress_green.
Qed.

(** X1: handling a progress notification changes nothing of a session but
    its status and its ranges: the id, the anchor position, the document,
    the decoration type and the listeners stay as they were. *)
Theorem handleProgress_keeps_identity
    (this : Agent.t) (params : RunAgentProgress.t) (editors : list TextEditor) :
  let after := (Agent.handleProgress this params editors).1.1 in
  Agent.id after = Agent.id this
  ∧ Agent.startPosition after = Agent.startPosition this
  ∧ Agent.textDocument after = Agent.textDocument this
  ∧ Agent.green after = Agent.green this
  ∧ Agent.onStatusChange after = Agent.onStatusChange this.
Proof.
  unfold Agent.handleProgress.
  destruct (RunAgentProgress.status params) as [s|]; simpl;
    [destruct (decide (Agent.status this ≠ s)); simpl|];
    by destruct (RunAgentProgress.ranges params).
Qed.

(** X2: handling a progress notification keeps the visible editors and
    their documents, leaves every editor that shows another document as it
    was, and in every editor leaves the ranges of every decoration type
    other than the session's own as they were. *)
Theorem handleProgress_frames_editors
    (this : Agent.t) (params : RunAgentProgress.t) (editors : list TextEditor) :
  let after := (Agent.handleProgress this params editors).1.2 in
  document <$> after = document <$> editors
  ∧ (∀ i e, editors !! i = Some e →
            document_uri (document e) ≠ uri (RunAgentProgress.textDocument params) →
            after !! i = Some e)
  ∧ (∀ g, g ≠ Agent.green this → decorated g <$> after = decorated g <$> editors).
Proof.
  cbn zeta. rewrite handleProgress_editors.
  set (this' := (Agent.handleProgress this params editors).1.1).
  assert (Hgreen : Agent.green this' = Agent.green this) by apply handleProgress_green.
  assert (Hdecorate : ∀ e,
    document (Agent.decorate this' params e) = document e
    ∧ ∀ g, g ≠ Agent.green this →
           decorated g (Agent.decorate this' params e) = decorated g e).
  { intros e. unfold Agent.decorate.
    case_bool_decide; [|destruct (RunAgentProgress.ranges params)];
      (split; [done|]); intros g Hg; unfold decorated, setDecorations; simpl;
      try done; rewrite Hgreen, lookup_insert_ne; done. }
  split; [|split].
  - rewrite <- list_fmap_compose. apply list_fmap_ext. intros i e _. simpl.
    case_bool_decide; [apply Hdecorate | done].
  - intros i e Hi Hdoc. rewrite list_lookup_fmap, Hi. simpl.
    by rewrite bool_decide_eq_false_2.
  - intros g Hg. rewrite <- list_fmap_compose. apply list_fmap_ext. intros i e _. simpl.
    case_bool_decide; [by apply Hdecorate | done].
Qed.

Lemma default_last_cons {A : Type} (a x : A) (l : list A) :
  default a (last (x :: l)) = default x (last l).
Proof.
  revert a x. induction l as [|y l IH]; intros a x; [done|].
  change (last (x :: y :: l)) with (last (y :: l)).
  by rewrite (IH a y), (IH x y).
Qed.

(** X3: after any sequence of progress notifications the status of a
    session is the one carried by the last notification that carries a
    status, and its ranges are those carried by the last notification that
    carries ranges; with no such notification they are the initial ones. *)
Theorem handleAll_last_wins
    (this : Agent.t) (notifications : list RunAgentProgress.t) (editors : list TextEditor) :
  let after := (Agent.handleAll this notifications editors).1.1 in
  Agent.status after
  = default (Agent.status this) (last (omap RunAgentProgress.status notifications))
  ∧ Agent.ranges after
    = default (Agent.ranges this) (last (omap RunAgentProgress.ranges notifications)).
Proof.
  cbn zeta. revert this editors.
  induction notifications as [|params rest IH]; intros this editors; [done|].
  rewrite handleAll_cons. cbn [fst].
  destruct (IH (Agent.handleProgress this params editors).1.1
               (Agent.handleProgress this params editors).1.2) as [-> ->].
  rewrite handleProgress_status, handleProgress_ranges. cbn [omap list_omap].
  split.
  - destruct (RunAgentProgress.status params); simpl; [by rewrite default_last_cons | done].
  - destruct (RunAgentProgress.ranges params); simpl; [by rewrite default_last_cons | done].
Qed.

(** ** Further facts about the registry map *)

Section RegistryUpdates.
Context {V : Type}.
Implicit Types (m : JsMap.t V) (k : Z) (v : V).

Lemma set_absent k v m : JsMap.get k m = None → JsMap.set k v m = m ++ [(k, v)].
Proof.
  induction m as [|[k0 v0] m IH]; simpl; [done|].
  destruct (decide (k = k0)); [done|]. intros Hnone. by rewrite IH.
Qed.

Lemma keys_set_present k v v0 m :
  JsMap.get k m = Some v0 → JsMap.keys (JsMap.set k v m) = JsMap.keys m.
Proof.
  unfold JsMap.keys. induction m as [|[k1 v1] m IH]; simpl; [done|].
  destruct (decide (k = k1)) as [->|Hne]; simpl; [done|].
  intros Hget. by rewrite IH.
Qed.

Lemma fmap_values_set_present {B : Type} (g : V → B) k v v0 m :
  JsMap.get k m = Some v0 → g v = g v0 →
  g <$> JsMap.values (JsMap.set k v m) = g <$> JsMap.values m.
Proof.
  unfold JsMap.values. intros Hget Hg.
  induction m as [|[k1 v1] m IH]; cbn [JsMap.get JsMap.set] in *; [done|].
  destruct (decide (k = k1)) as [->|Hne]; cbn [map snd]; rewrite !fmap_cons.
  - injection Hget as ->. by rewrite Hg.
  - by rewrite IH.
Qed.

Lemma elem_of_values_set x k v m :
  x ∈ JsMap.values (JsMap.set k v m) → x = v ∨ x ∈ JsMap.values m.
Proof.
  unfold JsMap.values. induction m as [|[k1 v1] m IH]; simpl.
  - rewrite list_elem_of_singleton. tauto.
  - destruct (decide (k = k1)) as [->|Hne]; simpl; rewrite !elem_of_cons; tauto.
Qed.

Lemma Forall_values_set (P : V → Prop) k v m :
  P v → Forall P (JsMap.values m) → Forall P (JsMap.values (JsMap.set k v m)).
Proof.
  intros Hv Hm. rewrite Forall_forall in *. intros x Hx.
  apply elem_of_values_set in Hx as [->|Hx]; [done | by apply Hm].
Qed.

Lemma NoDup_fmap_values_set {B : Type} (g : V → B) k v m :
  NoDup (g <$> JsMap.values m) →
  (∀ x, x ∈ JsMap.values m → g x ≠ g v) →
  NoDup (g <$> JsMap.values (JsMap.set k v m)).
Proof.
  unfold JsMap.values. induction m as [|[k1 v1] m IH]; cbn [JsMap.set map snd].
  - intros _ _. apply NoDup_singleton.
  - rewrite !fmap_cons. intros [Hnotin Hm]%NoDup_cons Hfresh.
    destruct (decide (k = k1)) as [->|Hne]; cbn [map snd]; rewrite fmap_cons;
      apply NoDup_cons.
    + split; [|done]. intros (x & Hgx & Hx)%list_elem_of_fmap.
      apply (Hfresh x); [by apply list_elem_of_further | done].
    + split.
      * intros (x & Hgx & Hx)%list_elem_of_fmap.
        apply elem_of_values_set in Hx as [->|Hx].
        -- apply (Hfresh v1); [apply list_elem_of_here | done].
        -- apply Hnotin. rewrite Hgx. by apply list_elem_of_fmap_2.
      * apply IH; [done|]. intros x Hx. apply Hfresh. by apply list_elem_of_further.
Qed.

Lemma elem_of_values_get k v m : JsMap.get k m = Some v → v ∈ JsMap.values m.
Proof.
  intros Hget%get_Some_elem_of. unfold JsMap.values.
  change v with (snd (k, v)). by apply list_elem_of_fmap_2.
Qed.

(** Two entries filed under different keys are different entries. *)
Lemma NoDup_fmap_values_get {B : Type} (g : V → B) k k' v v' m :
  NoDup (g <$> JsMap.values m) →
  JsMap.get k m = Some v → JsMap.get k' m = Some v' → k ≠ k' → g v ≠ g v'.
Proof.
  unfold JsMap.values. induction m as [|[k1 v1] m IH]; cbn [JsMap.get map snd]; [done|].
  rewrite fmap_cons. intros [Hnotin Hm]%NoDup_cons Hk Hk' Hne.
  destruct (decide (k = k1)) as [->|Hk1], (decide (k' = k1)) as [->|Hk1'].
  - done.
  - injection Hk as ->. intros Heq. apply Hnotin. rewrite Heq.
    apply list_elem_of_fmap_2. by apply elem_of_values_get in Hk'.
  - injection Hk' as ->. intros Heq. apply Hnotin. rewrite <- Heq.
    apply list_elem_of_fmap_2. by apply elem_of_values_get in Hk.
  - by apply IH.
Qed.

End RegistryUpdates.

(** ** Further properties of progress routing *)

Lemma morph_notify_entry (params : RunAgentProgress.t) (this : t) (agent : Agent.t) :
  is_running this = true →
  JsMap.get (RunAgentProgress.id params) (agents this) = Some agent →
  JsMap.get (RunAgentProgress.id params) (agents (morph_notify params this).2)
  = Some (Agent.handleProgress agent params (visibleTextEditors this)).1.1.
Proof.
  intros Hrun Hget. unfold morph_notify. rewrite Hrun, Hget. simpl.
  destruct (Agent.handleProgress agent params (visibleTextEditors this))
    as [[agent' editors'] fired].
  simpl. apply get_set_eq.
Qed.

(** X4: whatever the notification and the state of the connection, the
    inbound progress handler neither adds nor removes a registry entry and
    keeps the order of the entries. *)
Theorem morph_notify_keeps_keys (params : RunAgentProgress.t) (this : t) :
  JsMap.keys (agents (morph_notify params this).2) = JsMap.keys (agents this).
Proof.
  unfold morph_notify. destruct (is_running this); simpl; [|done].
  destruct (JsMap.get (RunAgentProgress.id params) (agents this)) as [agent|] eqn:Hget;
    [|done].
  destruct (Agent.handleProgress agent params (visibleTextEditors this))
    as [[agent' editors'] fired].
  simpl. by eapply keys_set_present.
Qed.

(** X5: on a running client, a progress notification for a registered id
    succeeds and reaches that session only: the session filed under the id
    takes the status and the ranges carried (each kept when not carried)
    and keeps its id, anchor and document; every other session, the
    connection and the chat callback are as before. *)
Theorem morph_notify_routes (params : RunAgentProgress.t) (this : t) (agent : Agent.t) :
  is_running this = true →
  JsMap.get (RunAgentProgress.id params) (agents this) = Some agent →
  (morph_notify params this).1 = Ok ()
  ∧ (∃ agent',
       JsMap.get (RunAgentProgress.id params) (agents (morph_notify params this).2)
       = Some agent'
       ∧ Agent.status agent'
         = default (Agent.status agent) (RunAgentProgress.status params)
       ∧ Agent.ranges agent'
         = default (Agent.ranges agent) (RunAgentProgress.ranges params)
       ∧ Agent.id agent' = Agent.id agent
       ∧ Agent.startPosition agent' = Agent.startPosition agent
       ∧ Agent.textDocument agent' = Agent.textDocument agent)
  ∧ (∀ k, k ≠ RunAgentProgress.id params →
          JsMap.get k (agents (morph_notify params this).2) = JsMap.get k (agents this))
  ∧ client (morph_notify params this).2 = client this
  ∧ morphNotifyChatCallback (morph_notify params this).2 = morphNotifyChatCallback this.
Proof.
  intros Hrun Hget. unfold morph_notify. rewrite Hrun, Hget. simpl.
  pose proof (handleProgress_status agent params (visibleTextEditors this)) as Hstatus.
  pose proof (handleProgress_ranges agent params (visibleTextEditors this)) as Hranges.
  pose proof (handleProgress_id agent params (visibleTextEditors this)) as Hid.
  pose proof (handleProgress_anchor agent params (visibleTextEditors this))
    as (Hpos & Hdoc).
  destruct (Agent.handleProgress agent params (visibleTextEditors this))
    as [[agent' editors'] fired].
  simpl in *. split; [done|]. split; [|split; [|done]].
  - exists agent'. by rewrite get_set_eq.
  - intros k Hk. by rewrite get_set_ne.
Qed.

Lemma morph_notify_routes_witness :
  is_running one_agent = true
  ∧ JsMap.get 1 (agents one_agent) = Some agent1
  ∧ (morph_notify (progress 1 done (Some edited)) one_agent).1 = Ok ().
Proof.
  split; [reflexivity|]. split; [reflexivity|].
  destruct (morph_notify_routes (progress 1 done (Some edited)) one_agent agent1
              eq_refl eq_refl) as [Hok _].
  exact Hok.
Defined.

(** The signals a successful progress notification adds. *)
Lemma morph_notify_signals (params : RunAgentProgress.t) (this : t) (agent : Agent.t) :
  is_running this = true →
  JsMap.get (RunAgentProgress.id params) (agents this) = Some agent →
  signals (morph_notify params this).2
  = signals this ++ (Agent.handleProgress agent params (visibleTextEditors this)).2.
Proof.
  intros Hrun Hget. unfold morph_notify. rewrite Hrun, Hget. simpl.
  by destruct (Agent.handleProgress agent params (visibleTextEditors this))
    as [[agent' editors'] fired].
Qed.

(** X6: a status change reported for an agent started with [run_agent]
    sends the status-change signal of the session followed by one
    lenses-changed signal; reported for an agent started with
    [run_agent_sync] it sends the status-change signal alone, so the
    lenses are not refreshed. *)
Theorem status_change_refreshes_lenses_only_for_run_agent
    (call : RunAgentParams.t) (id : Z) (text : string)
    (params : RunAgentProgress.t) (s : AgentStatus) (this : t) :
  is_running this = true →
  RunAgentProgress.id params = id →
  RunAgentProgress.status params = Some s →
  s ≠ running →
  signals (morph_notify params (run_agent call (Ok (RunAgentResult.mk id)) this).2).2
  = signals this ++ [ChangeLenses] ++ [StatusChange id s; ChangeLenses]
  ∧ signals (morph_notify params
               (run_agent_sync call (Ok (RunAgentSyncResult.mk id text)) this).2).2
    = signals this ++ [StatusChange id s].
Proof.
  intros Hrun Hid Hstatus Hs.
  assert (∃ c, client this = Some c ∧ LanguageClient.state c = Running) as (c & Hc & Hstate).
  { unfold is_running in Hrun. destruct (client this) as [c|]; [|done].
    exists c. split; [done|]. by apply bool_decide_eq_true_1 in Hrun. }
  split.
  - rewrite (morph_notify_signals _ _
               (Agent.subscribe FireChangeLens
                  (Agent.new id (RunAgentParams.position call)
                     (RunAgentParams.textDocument call) (decorationTypes this)))).
    + unfold run_agent. rewrite Hc. simpl. rewrite handleProgress_fired.
      unfold status_differs. rewrite Hstatus. simpl.
      rewrite bool_decide_eq_true_2 by done. by rewrite <- app_assoc.
    + unfold run_agent, is_running. rewrite Hc. simpl. by rewrite Hstate.
    + unfold run_agent. rewrite Hc, Hid. simpl. apply get_set_eq.
  - rewrite (morph_notify_signals _ _
               (Agent.new id (RunAgentParams.position call)
                  (RunAgentParams.textDocument call) (decorationTypes this))).
    + unfold run_agent_sync. rewrite Hc. simpl. rewrite handleProgress_fired.
      unfold status_differs. rewrite Hstatus. simpl.
      by rewrite bool_decide_eq_true_2 by done.
    + unfold run_agent_sync, is_running. rewrite Hc. simpl. by rewrite Hstate.
    + unfold run_agent_sync. rewrite Hc, Hid. simpl. apply get_set_eq.
Qed.

Lemma status_change_refreshes_lenses_only_for_run_agent_witness :
  is_running connected = true
  ∧ signals (morph_notify (progress 1 done None)
               (run_agent fix_bug (Ok (RunAgentResult.mk 1)) connected).2).2
    = [ChangeLenses; StatusChange 1 done; ChangeLenses]
  ∧ signals (morph_notify (progress 1 done None)
               (run_agent_sync fix_bug (Ok (RunAgentSyncResult.mk 1 "x = 1")) connected).2).2
    = [StatusChange 1 done].
Proof.
  split; [reflexivity|].
  exact (status_change_refreshes_lenses_only_for_run_agent fix_bug 1 "x = 1"
           (progress 1 done None) done connected eq_refl eq_refl eq_refl
           ltac:(discriminate)).
Defined.

(** ** Further properties of the requests *)

(** X7: without a connection, [run_agent], [run_agent_sync] and [run_chat]
    throw and leave the whole state as it was; in particular [run_chat]
    does not install the callback it was given and no session is made. *)
Theorem requests_need_connection
    (call : RunAgentParams.t) (chat : RunChatParams.t) (callback : ChatCallback)
    (r1 : result RunAgentResult.t) (r2 : result RunAgentSyncResult.t)
    (r3 : result unit) (this : t) :
  client this = None →
  run_agent call r1 this
  = (Throw "waiting for a connection to rift-engine, please make sure the rift-engine is running on port 7797",
     this)
  ∧ run_agent_sync call r2 this = (Throw "", this)
  ∧ run_chat chat callback r3 this = (Throw "", this).
Proof.
  intros Hnone. unfold run_agent, run_agent_sync, run_chat. rewrite Hnone. done.
Qed.

Lemma requests_need_connection_witness :
  client (new []) = None
  ∧ run_chat (RunChatParams.mk "hi" [] None None) (λ _, Ok ()) (Ok ()) (new [])
    = (Throw "", new []).
Proof.
  split; [reflexivity|].
  destruct (requests_need_connection fix_bug (RunChatParams.mk "hi" [] None None)
              (λ _, Ok ()) (Ok (RunAgentResult.mk 1))
              (Ok (RunAgentSyncResult.mk 1 "")) (Ok ()) (new []) eq_refl)
    as (_ & _ & Hchat).
  exact Hchat.
Defined.



(** X9: a successful [run_agent] touches one registry entry only.  With an
    id that is not yet a key the new session is appended after the
    existing entries; with an id that is already a key the keys and their
    order stay and the session filed under the id is replaced by the new
    one, so its former status and ranges are gone.  Sessions under other
    ids and the editors are as before, and one lenses-changed signal is
    sent. *)
Theorem run_agent_registry_effect (call : RunAgentParams.t) (id : Z) (this : t) :
  client this ≠ None →
  let after := (run_agent call (Ok (RunAgentResult.mk id)) this).2 in
  let session :=
    Agent.mk id (RunAgentParams.position call) (RunAgentParams.textDocument call)
      running (decorationTypes this) [] [FireChangeLens] in
  (JsMap.get id (agents this) = None → agents after = agents this ++ [(id, session)])
  ∧ (is_Some (JsMap.get id (agents this)) →
     JsMap.keys (agents after) = JsMap.keys (agents this)
     ∧ JsMap.get id (agents after) = Some session)
  ∧ (∀ k, k ≠ id → JsMap.get k (agents after) = JsMap.get k (agents this))
  ∧ visibleTextEditors after = visibleTextEditors this
  ∧ signals after = signals this ++ [ChangeLenses].
Proof.
  intros Hclient. unfold run_agent.
  destruct (client this) as [c|]; [|done]. cbn.
  split; [|split; [|split]].
  - intros Hnone. by apply set_absent.
  - intros [old Hold]. split; [by eapply keys_set_present | apply get_set_eq].
  - intros k Hk. by apply get_set_ne.
  - done.
Qed.

Lemma run_agent_registry_effect_witness :
  client one_agent ≠ None
  ∧ is_Some (JsMap.get 1 (agents one_agent))
  ∧ JsMap.keys (agents (run_agent fix_bug (Ok (RunAgentResult.mk 1)) one_agent).2)
    = JsMap.keys (agents one_agent).
Proof.
  split; [discriminate|]. split; [by eexists|].
  destruct (run_agent_registry_effect fix_bug 1 one_agent ltac:(discriminate))
    as (_ & Hpresent & _).
  destruct (Hpresent (ex_intro _ agent1 eq_refl)) as [Hkeys _].
  exact Hkeys.
Defined.

(** ** Decoration types of the sessions *)

Lemma decorations_wf_new (editors : list TextEditor) : decorations_wf (new editors).
Proof. split; [constructor | apply NoDup_nil_2]. Qed.

Lemma decorations_wf_fresh (id : Z) (agent : Agent.t) (this : t) :
  Agent.green agent = decorationTypes this →
  decorations_wf this →
  decorations_wf
    (set_agents (JsMap.set id agent (agents this)) (createTextEditorDecorationType this).2).
Proof.
  intros Hgreen [Hbelow Hnodup]. split; simpl.
  - apply Forall_values_set; [lia|].
    eapply Forall_impl; [exact Hbelow|]. intros x Hx. simpl in Hx. lia.
  - apply NoDup_fmap_values_set; [done|].
    intros x Hx. rewrite Forall_forall in Hbelow. specialize (Hbelow x Hx).
    simpl in Hbelow. lia.
Qed.

(** X10: the operations that write the registry keep the decoration types
    of the sessions in order: after [run_agent], [run_agent_sync] and
    [morph_notify], whatever their outcome, every session still holds a
    decoration type handed out by the editor and no two sessions share
    one. *)
Theorem decorations_wf_kept
    (call : RunAgentParams.t) (r1 : result RunAgentResult.t)
    (r2 : result RunAgentSyncResult.t) (params : RunAgentProgress.t) (this : t) :
  decorations_wf this →
  decorations_wf (run_agent call r1 this).2
  ∧ decorations_wf (run_agent_sync call r2 this).2
  ∧ decorations_wf (morph_notify params this).2.
Proof.
  intros Hwf. split; [|split].
  - unfold run_agent. destruct (client this) as [c|]; [|done].
    destruct r1 as [[id]|e]; [|done]. cbn.
    by apply (decorations_wf_fresh id _ this).
  - unfold run_agent_sync. destruct (client this) as [c|]; [|done].
    destruct r2 as [[id text]|e]; [|done]. cbn.
    by apply (decorations_wf_fresh id _ this).
  - unfold morph_notify. destruct (is_running this); simpl; [|done].
    destruct (JsMap.get (RunAgentProgress.id params) (agents this)) as [agent|] eqn:Hget;
      [|done].
    pose proof (handleProgress_green agent params (visibleTextEditors this)) as Hgreen.
    destruct (Agent.handleProgress agent params (visibleTextEditors this))
      as [[agent' editors'] fired].
    simpl in Hgreen. destruct Hwf as [Hbelow Hnodup]. split; simpl.
    + apply Forall_values_set; [|done]. rewrite Hgreen.
      rewrite Forall_forall in Hbelow. apply Hbelow. by eapply elem_of_values_get.
    + by rewrite (fmap_values_set_present Agent.green _ _ agent).
Qed.

Lemma decorations_wf_kept_witness :
  decorations_wf one_agent
  ∧ decorations_wf (run_agent fix_bug (Ok (RunAgentResult.mk 1)) one_agent).2.
Proof.
  assert (Hwf : decorations_wf one_agent).
  { apply (bool_decide_unpack _). vm_compute. exact I. }
  split; [exact Hwf|].
  destruct (decorations_wf_kept fix_bug (Ok (RunAgentResult.mk 1))
              (Ok (RunAgentSyncResult.mk 1 "")) (progress 1 done None) one_agent Hwf)
    as [Hrun _].
  exact Hrun.
Defined.

(** X11: progress handled for one session never changes what the editors
    show for another session: in every visible editor the ranges decorated
    for a session filed under a different id are the same before and after
    the notification. *)
Theorem progress_keeps_other_decorations
    (params : RunAgentProgress.t) (this : t) (k : Z) (other : Agent.t) :
  decorations_wf this →
  JsMap.get k (agents this) = Some other →
  k ≠ RunAgentProgress.id params →
  decorated (Agent.green other) <$> visibleTextEditors (morph_notify params this).2
  = decorated (Agent.green other) <$> visibleTextEditors this.
Proof.
  intros [_ Hnodup] Hother Hk.
  unfold morph_notify. destruct (is_running this); simpl; [|done].
  destruct (JsMap.get (RunAgentProgress.id params) (agents this)) as [agent|] eqn:Hget;
    [|done].
  assert (Hgreen : Agent.green other ≠ Agent.green agent).
  { by eapply (NoDup_fmap_values_get Agent.green k (RunAgentProgress.id params)). }
  pose proof (handleProgress_other_decorations agent params (visibleTextEditors this)
                (Agent.green other) Hgreen) as Hframe.
  destruct (Agent.handleProgress agent params (visibleTextEditors this))
    as [[agent' editors'] fired].
  exact Hframe.
Qed.

Lemma progress_keeps_other_decorations_witness :
  decorations_wf two_agents
  ∧ JsMap.get 2 (agents two_agents) = Some agent2
  ∧ decorated (Agent.green agent2)
      <$> visibleTextEditors (morph_notify (progress 1 done (Some edited)) two_agents).2
    = decorated (Agent.green agent2) <$> visibleTextEditors two_agents.
Proof.
  assert (Hwf : decorations_wf two_agents).
  { apply (bool_decide_unpack _). vm_compute. exact I. }
  split; [exact Hwf|]. split; [reflexivity|].
  exact (progress_keeps_other_decorations (progress 1 done (Some edited)) two_agents
           2 agent2 Hwf eq_refl ltac:(discriminate)).
Defined.

(** ** Further properties of the code lenses *)

(** The lenses computed for a list of agents are the items so far followed
    by the contribution of each agent, in the order of the list. *)
Lemma lenses_of_concat (document : TextDocument) (agents : list Agent.t)
    (items out : list AgentLens.t) :
  lenses_of document agents items = Ok out →
  ∃ lss, Forall2 (λ agent ls, lenses_for document agent = Ok ls) agents lss
         ∧ out = items ++ concat lss.
Proof.
  revert items out. induction agents as [|first rest IH]; intros items out.
  - intros [= <-]. exists []. split; [constructor | by rewrite app_nil_r].
  - rewrite lenses_of_cons.
    destruct (lenses_for document first) as [ls|e] eqn:Hfirst; [|done].
    intros (lss & Hrest & ->)%IH. exists (ls :: lss).
    split; [by constructor | by rewrite <- app_assoc].
Qed.

Lemma lenses_for_Throw (document : TextDocument) (agent : Agent.t) (e : string) :
  lenses_for document agent = Throw e → e = "Illegal value for `line`".
Proof.
  unfold lenses_for, lineAt. case_bool_decide; [|done].
  destruct (lines document !! line (Agent.startPosition agent)); [done|].
  by intros [= <-].
Qed.

Lemma lenses_of_agent (document : TextDocument) (this : t)
    (items : list AgentLens.t) (k : Z) (agent : Agent.t) :
  registry_wf (agents this) →
  provideCodeLenses document this = Ok items →
  JsMap.get k (agents this) = Some agent →
  ∃ ls, lenses_for document agent = Ok ls
        ∧ filter (λ lens, AgentLens.id lens = k) items = ls.
Proof.
  intros Hwf Hitems Hget.
  pose proof (registry_wf_NoDup_ids _ Hwf) as Hnodup.
  assert (Hid : Agent.id agent = k).
  { apply get_Some_elem_of in Hget. destruct Hwf as [_ Hids].
    rewrite Forall_forall in Hids. exact (Hids _ Hget). }
  apply lenses_of_Ok in Hitems as (added & -> & _ & Hown).
  destruct (Hown Hnodup agent (elem_of_values_get _ _ _ Hget)) as (ls & Hls & Hfilter).
  exists ls. split; [done|]. simpl. by rewrite <- Hid.
Qed.

(** X12: every lens that [provideCodeLenses] returns belongs to an agent
    of the registry whose document is the one asked for, sits on the line
    anchoring that agent and carries its id; it is the cancel lens of a
    [running] agent or the accept or the reject lens of a [done] or
    [error] agent.  Agents of other documents and agents that are
    [accepted] or [rejected] get no lens. *)
Theorem lenses_sound (document : TextDocument) (this : t) (items : list AgentLens.t) :
  provideCodeLenses document this = Ok items →
  Forall
    (λ lens,
       ∃ agent linetext,
         agent ∈ agents_of document this
         ∧ lineAt document (line (Agent.startPosition agent)) = Ok linetext
         ∧ (Agent.status agent = running ∧ lens = running_lens (range linetext) agent
            ∨ (Agent.status agent = done ∨ Agent.status agent = error)
              ∧ (lens = accept_lens (range linetext) agent
                 ∨ lens = reject_lens (range linetext) agent)))
    items.
Proof.
  unfold provideCodeLenses, agents_of.
  intros (lss & Hlss & ->)%lenses_of_concat. simpl.
  induction Hlss as [|agent ls rest lss Hagent Hrest IH]; [constructor|].
  simpl. apply Forall_app. split.
  - unfold lenses_for in Hagent. case_bool_decide as Huri; [|injection Hagent as <-; constructor].
    destruct (lineAt document (line (Agent.startPosition agent))) as [linetext|]
      eqn:Hline; [|done].
    injection Hagent as <-.
    assert (Hin : agent ∈ filter (λ a, uri (Agent.textDocument a) = document_uri document)
                          (agent :: rest)).
    { apply list_elem_of_filter. split; [done | apply list_elem_of_here]. }
    destruct (Agent.status agent) eqn:Hstatus; repeat constructor;
      exists agent, linetext; (split; [exact Hin|]); (split; [done|]); tauto.
  - eapply Forall_impl; [exact IH|]. intros lens (a & linetext & Hin & Hrest').
    exists a, linetext. split; [|done].
    apply list_elem_of_filter in Hin as [Huri Hin].
    apply list_elem_of_filter. split; [done | by apply list_elem_of_further].
Qed.

Lemma lenses_sound_witness :
  provideCodeLenses a_py two_agents
  = Ok [running_lens (mkRange (mkPosition 3 0) (mkPosition 3 16)) agent1;
        running_lens (mkRange (mkPosition 3 0) (mkPosition 3 16)) agent2]
  ∧ Forall
      (λ lens,
         ∃ agent linetext,
           agent ∈ agents_of a_py two_agents
           ∧ lineAt a_py (line (Agent.startPosition agent)) = Ok linetext
           ∧ (Agent.status agent = running ∧ lens = running_lens (range linetext) agent
              ∨ (Agent.status agent = done ∨ Agent.status agent = error)
                ∧ (lens = accept_lens (range linetext) agent
                   ∨ lens = reject_lens (range linetext) agent)))
      [running_lens (mkRange (mkPosition 3 0) (mkPosition 3 16)) agent1;
       running_lens (mkRange (mkPosition 3 0) (mkPosition 3 16)) agent2].
Proof.
  split; [reflexivity|].
  exact (lenses_sound a_py two_agents _ eq_refl).
Defined.

Lemma lenses_for_length (document : TextDocument) (agent : Agent.t) (ls : list AgentLens.t) :
  lenses_for document agent = Ok ls →
  length ls
  = (length (filter (λ a, Agent.status a = running)
               (filter (λ a, uri (Agent.textDocument a) = document_uri document) [agent]))
     + 2 * length (filter (λ a, Agent.status a = done ∨ Agent.status a = error)
                     (filter (λ a, uri (Agent.textDocument a) = document_uri document)
                        [agent])))%nat.
Proof.
  unfold lenses_for. rewrite (filter_cons _ agent []), filter_nil.
  case_bool_decide as Huri.
  - rewrite decide_True by done.
    destruct (lineAt document (line (Agent.startPosition agent))); [|done].
    intros [= <-]. rewrite !(filter_cons _ agent []), !filter_nil.
    destruct (Agent.status agent); simpl;
      repeat (case_decide; try done; try (exfalso; intuition congruence));
      reflexivity.
  - rewrite decide_False by done. by intros [= <-].
Qed.

(** X13: the number of lenses that [provideCodeLenses] returns for a
    document is the number of its [running] agents plus twice the number
    of its [done] or [error] agents. *)
Theorem lenses_count (document : TextDocument) (this : t) (items : list AgentLens.t) :
  provideCodeLenses document this = Ok items →
  length items
  = (length (filter (λ a, Agent.status a = running) (agents_of document this))
     + 2 * length (filter (λ a, Agent.status a = done ∨ Agent.status a = error)
                     (agents_of document this)))%nat.
Proof.
  unfold provideCodeLenses, agents_of.
  intros (lss & Hlss & ->)%lenses_of_concat. simpl.
  induction Hlss as [|agent ls rest lss Hagent Hrest IH]; [done|].
  simpl. rewrite length_app, IH, (lenses_for_length _ _ _ Hagent).
  change (agent :: rest) with ([agent] ++ rest).
  rewrite !filter_app, !length_app. lia.
Qed.

Lemma lenses_count_witness :
  provideCodeLenses a_py two_agents
  = Ok [running_lens (mkRange (mkPosition 3 0) (mkPosition 3 16)) agent1;
        running_lens (mkRange (mkPosition 3 0) (mkPosition 3 16)) agent2]
  ∧ 2%nat
    = (length (filter (λ a, Agent.status a = running) (agents_of a_py two_agents))
       + 2 * length (filter (λ a, Agent.status a = done ∨ Agent.status a = error)
                       (agents_of a_py two_agents)))%nat.
Proof.
  split; [reflexivity|].
  exact (lenses_count a_py two_agents _ eq_refl).
Defined.

(** X14: when an agent of the document is anchored at a line that the
    document does not have, [provideCodeLenses] throws and returns no lens
    at all, whatever the other agents are. *)
Theorem lenses_throw_beyond_last_line
    (document : TextDocument) (this : t) (agent : Agent.t) :
  agent ∈ agents_of document this →
  (length (lines document) ≤ line (Agent.startPosition agent))%nat →
  provideCodeLenses document this = Throw "Illegal value for `line`".
Proof.
  unfold provideCodeLenses, agents_of.
  intros [Huri Hin]%list_elem_of_filter Hline.
  generalize (@nil AgentLens.t) as items.
  induction (JsMap.values (agents this)) as [|first rest IH]; intros items.
  - by apply elem_of_nil in Hin.
  - rewrite lenses_of_cons.
    destruct (lenses_for document first) as [ls|e] eqn:Hfirst.
    + apply elem_of_cons in Hin as [->|Hin]; [|by apply IH].
      unfold lenses_for, lineAt in Hfirst.
      rewrite bool_decide_eq_true_2 in Hfirst by done.
      by rewrite (lookup_ge_None_2 _ _ Hline) in Hfirst.
    + by rewrite (lenses_for_Throw _ _ _ Hfirst).
Qed.

Lemma lenses_throw_beyond_last_line_witness :
  agent1 ∈ agents_of (mkTextDocument "a.py" ["import sys"]) two_agents
  ∧ (length (lines (mkTextDocument "a.py" ["import sys"]))
     ≤ line (Agent.startPosition agent1))%nat
  ∧ provideCodeLenses (mkTextDocument "a.py" ["import sys"]) two_agents
    = Throw "Illegal value for `line`".
Proof.
  assert (Hin : agent1 ∈ agents_of (mkTextDocument "a.py" ["import sys"]) two_agents).
  { vm_compute. apply list_elem_of_here. }
  assert (Hline : (length (lines (mkTextDocument "a.py" ["import sys"]))
                   ≤ line (Agent.startPosition agent1))%nat).
  { vm_compute. lia. }
  split; [exact Hin|]. split; [exact Hline|].
  exact (lenses_throw_beyond_last_line _ two_agents agent1 Hin Hline).
Defined.

(** X15: once a progress notification carrying [accepted] or [rejected]
    has been handled for a session, the lenses computed afterwards hold no
    lens for that session, in any document. *)
Theorem lenses_gone_after_terminal_progress
    (params : RunAgentProgress.t) (s : AgentStatus) (this : t)
    (document : TextDocument) (items : list AgentLens.t) :
  registry_wf (agents this) →
  is_running this = true →
  is_Some (JsMap.get (RunAgentProgress.id params) (agents this)) →
  RunAgentProgress.status params = Some s →
  is_terminal s = true →
  provideCodeLenses document (morph_notify params this).2 = Ok items →
  filter (λ lens, AgentLens.id lens = RunAgentProgress.id params) items = [].
Proof.
  intros Hwf Hrun [agent Hget] Hstatus Hterminal Hitems.
  pose proof (morph_notify_entry params this agent Hrun Hget) as Hget'.
  pose proof (handleProgress_status agent params (visibleTextEditors this)) as Hstatus'.
  set (agent' := (Agent.handleProgress agent params (visibleTextEditors this)).1.1) in *.
  destruct (lenses_of_agent document _ items _ agent'
              (morph_notify_registry_wf params this Hwf) Hitems Hget')
    as (ls & Hls & ->).
  rewrite Hstatus in Hstatus'. simpl in Hstatus'.
  unfold lenses_for in Hls. case_bool_decide; [|by injection Hls as <-].
  destruct (lineAt document (line (Agent.startPosition agent'))); [|done].
  injection Hls as <-. rewrite Hstatus'. by destruct s.
Qed.

Lemma lenses_gone_after_terminal_progress_witness :
  registry_wf (agents two_agents)
  ∧ is_running two_agents = true
  ∧ provideCodeLenses a_py (morph_notify (progress 1 rejected None) two_agents).2
    = Ok [running_lens (mkRange (mkPosition 3 0) (mkPosition 3 16)) agent2]
  ∧ filter (λ lens, AgentLens.id lens = 1)
      [running_lens (mkRange (mkPosition 3 0) (mkPosition 3 16)) agent2]
    = [].
Proof.
  assert (Hwf : registry_wf (agents two_agents)).
  { apply (bool_decide_unpack _). vm_compute. exact I. }
  split; [exact Hwf|]. split; [reflexivity|]. split; [reflexivity|].
  exact (lenses_gone_after_terminal_progress (progress 1 rejected None) rejected
           two_agents a_py _ Hwf eq_refl (ex_intro _ agent1 eq_refl) eq_refl eq_refl
           eq_refl).
Defined.

(** ** Inline completions *)

(** X16: a successful inline completion returns the text of the backend as
    a snippet and sends no signal, yet it files a [running] session under
    the id answered, anchored at the completion position: the lenses
    computed afterwards for the document hold exactly one cancel lens for
    that id, on the line of the position. *)
Theorem inline_completion_leaves_running_lens
    (doc : TextDocument) (position : Position) (id : Z) (text : string) (this : t)
    (items : list AgentLens.t) :
  client this ≠ None →
  registry_wf (agents this) →
  let outcome :=
    provideInlineCompletionItems doc position
      (Ok (RunAgentSyncResult.mk id text)) this in
  let session :=
    Agent.new id position (mkTextDocumentIdentifier (document_uri doc))
      (decorationTypes this) in
  outcome.1 = Ok (mkSnippetString (JsString text))
  ∧ signals outcome.2 = signals this
  ∧ JsMap.get id (agents outcome.2) = Some session
  ∧ (provideCodeLenses doc outcome.2 = Ok items →
     ∃ linetext,
       lineAt doc (line position) = Ok linetext
       ∧ filter (λ lens, AgentLens.id lens = id) items
         = [running_lens (range linetext) session]).
Proof.
  intros Hclient Hwf. cbn zeta.
  set (session := Agent.new id position (mkTextDocumentIdentifier (document_uri doc))
                    (decorationTypes this)).
  destruct (client this) as [c|] eqn:Hc; [|done].
  set (call := RunAgentParams.mk "complete the code" position
                 (mkTextDocumentIdentifier (document_uri doc))).
  set (after :=
         set_agents (JsMap.set id session (agents this))
           (createTextEditorDecorationType
              (set_client (Some (LanguageClient.sendRequest "morph/run_agent_sync"
                                   (RunAgentPayload call) c)) this)).2).
  assert (Hrun : provideInlineCompletionItems doc position
                   (Ok (RunAgentSyncResult.mk id text)) this
                 = (Ok (mkSnippetString (JsString text)), after)).
  { unfold provideInlineCompletionItems, run_agent_sync. by rewrite Hc. }
  rewrite Hrun. cbn [fst snd].
  change (agents after) with (JsMap.set id session (agents this)).
  split; [done|]. split; [done|]. split; [apply get_set_eq|].
  intros Hitems.
  destruct (lenses_of_agent doc after items id session) as (ls & Hls & ->).
  { by apply registry_wf_set. }
  { exact Hitems. }
  { apply get_set_eq. }
  unfold lenses_for in Hls. simpl in Hls.
  rewrite bool_decide_eq_true_2 in Hls by done.
  destruct (lineAt doc (line position)) as [linetext|]; [|done].
  injection Hls as <-. by exists linetext.
Qed.

Lemma inline_completion_leaves_running_lens_witness :
  client connected ≠ None
  ∧ registry_wf (agents connected)
  ∧ (provideInlineCompletionItems a_py (mkPosition 2 4)
       (Ok (RunAgentSyncResult.mk 5 "    pass")) connected).1
    = Ok (mkSnippetString (JsString "    pass"))
  ∧ JsMap.get 5
      (agents (provideInlineCompletionItems a_py (mkPosition 2 4)
                 (Ok (RunAgentSyncResult.mk 5 "    pass")) connected).2)
    = Some (Agent.new 5 (mkPosition 2 4) a_py_id 0%nat).
Proof.
  split; [discriminate|]. split; [exact registry_wf_empty|].
  destruct (inline_completion_leaves_running_lens a_py (mkPosition 2 4) 5 "    pass"
              connected [] ltac:(discriminate) registry_wf_empty)
    as (Hresult & _ & Hget & _).
  split; [exact Hresult | exact Hget].
Defined.

(** ** Connection life cycle *)

Lemma poll_detects (n : nat) (rest : list (result bool)) :
  poll (replicate n (Ok false) ++ Ok true :: rest) = Some (Ok ()).
Proof. induction n as [|n IH]; [done | exact IH]. Qed.

Lemma poll_waits (n : nat) : poll (replicate n (Ok false)) = None.
Proof. induction n as [|n IH]; [done | exact IH]. Qed.

(** X17: [create_client] never touches the registry, the chat callback,
    the editors or the signals, whatever the port checks and the start
    give.  A client that exists and is not stopped is kept as it is, and
    once a [create_client] has returned without error every further
    [create_client] returns at once and changes nothing.  While the poll
    has not ended nothing changes, and a [create_client] that throws
    leaves no running client. *)
Theorem create_client_idempotent
    (checks : list (result bool)) (start : result unit) (this : t) :
  let out := create_client checks start this in
  agents out.2 = agents this
  ∧ morphNotifyChatCallback out.2 = morphNotifyChatCallback this
  ∧ visibleTextEditors out.2 = visibleTextEditors this
  ∧ signals out.2 = signals this
  ∧ (∀ c, client this = Some c → LanguageClient.state c ≠ Stopped →
          out = (Returned (Ok ()), this))
  ∧ (out.1 = Returned (Ok ()) →
     ∀ checks' start', create_client checks' start' out.2 = (Returned (Ok ()), out.2))
  ∧ (out.1 = Waiting → out.2 = this)
  ∧ (∀ e, out.1 = Returned (Throw e) → is_running out.2 = false).
Proof.
  unfold create_client, is_running.
  destruct (client this) as [c|] eqn:Hc.
  - case_bool_decide as Hlive.
    + cbn [fst snd]. rewrite Hc, bool_decide_eq_true_2 by done.
      repeat split; try done.
    + destruct (poll checks) as [[[]|e]|]; [destruct start as [[]|e]| |];
        cbn [fst snd]; repeat split; try done;
        try (intros c' [= <-] Hlive'; done);
        try (intros e' _; rewrite Hc; by rewrite Hlive).
  - destruct (poll checks) as [[[]|e]|]; [destruct start as [[]|e]| |];
      cbn [fst snd]; repeat split; try done;
      try (intros e' _; by rewrite Hc).
Qed.

(** X18: when the connection stops, the listener ends with a running
    client exactly when it returns without error, that is when
    [dispose()] resolved, the port poll found the server and the start
    succeeded; a rejected [dispose()] ends it with the stopped client in
    place.  In every case the registry, the chat callback and the editors
    are kept.  After a successful reconnection progress notifications are
    routed to [morph_notify] again, but the new connection has no handler
    for chat progress, so chat progress is not delivered to the callback
    installed by an earlier [run_chat]. *)
Theorem reconnect_after_stop
    (dispose : result unit) (checks : list (result bool)) (start : result unit)
    (this : t) (c : LanguageClient.t) :
  client this = Some c →
  let out := onDidChangeState Stopped dispose checks start this in
  agents out.2 = agents this
  ∧ morphNotifyChatCallback out.2 = morphNotifyChatCallback this
  ∧ visibleTextEditors out.2 = visibleTextEditors this
  ∧ (is_running out.2 = true ↔ out.1 = Returned (Ok ()))
  ∧ (∀ e, dispose = Throw e → out = (Returned (Throw e), enter_state Stopped this))
  ∧ (out.1 = Returned (Ok ()) →
     (∀ params,
        receive (MorphProgress params) out.2
        = (Handled (morph_notify params out.2).1, (morph_notify params out.2).2))
     ∧ (∀ progress, receive (MorphChatProgress progress) out.2 = (Unhandled, out.2))).
Proof.
  intros Hc. unfold onDidChangeState, enter_state. rewrite Hc, decide_True by done.
  destruct dispose as [[]|e].
  - unfold create_client. simpl.
    destruct (poll checks) as [[[]|e]|]; [destruct start as [[]|e]| |];
      cbn [fst snd]; (split; [done|]); (split; [done|]); (split; [done|]);
      (split; [done|]); (split; [done|]); try done.
    intros _. split; [|done].
    intros params. unfold receive. simpl. by destruct (morph_notify params _).
  - cbn [fst snd]. split; [done|]. split; [done|]. split; [done|].
    split; [done|]. split; [|done]. by intros e' [= <-].
Qed.

Lemma reconnect_after_stop_witness :
  client one_agent
  = Some (LanguageClient.mk Running {[ "morph/progress" := MorphNotify ]}
            [Request "morph/run_agent" (RunAgentPayload fix_bug)] [])
  ∧ is_running (onDidChangeState Stopped (Ok ()) [Ok false; Ok true] (Ok ()) one_agent).2
    = true
  ∧ is_running
      (onDidChangeState Stopped (Throw "dispose failed") [Ok true] (Ok ()) one_agent).2
    = false
  ∧ agents (onDidChangeState Stopped (Ok ()) [Ok false; Ok true] (Ok ()) one_agent).2
    = agents one_agent.
Proof.
  split; [reflexivity|].
  destruct (reconnect_after_stop (Ok ()) [Ok false; Ok true] (Ok ()) one_agent _ eq_refl)
    as (Hagents & _ & _ & Hrunning & _).
  split; [by apply Hrunning|]. split; [reflexivity | exact Hagents].
Defined.

(** X22: with no client, or a stopped one, [create_client] returns with a
    running client, on which only [morph/progress] has a handler, as soon
    as a port check finds the server after any number of checks that did
    not, provided the start succeeds; when the start fails it throws the
    error of the start and the client it leaves is stopped and has no
    handler; as long as no check finds the server it is still waiting and
    nothing has changed. *)
Theorem create_client_connects
    (n : nat) (rest : list (result bool)) (e : string) (this : t) :
  is_running this = false →
  (∀ c, client this = Some c → LanguageClient.state c = Stopped) →
  create_client (replicate n (Ok false) ++ Ok true :: rest) (Ok ()) this
  = (Returned (Ok ()),
     set_client
       (Some (LanguageClient.mk Running {[ "morph/progress" := MorphNotify ]} [] []))
       this)
  ∧ create_client (replicate n (Ok false) ++ Ok true :: rest) (Throw e) this
    = (Returned (Throw e), set_client (Some (LanguageClient.mk Stopped ∅ [] [])) this)
  ∧ create_client (replicate n (Ok false)) (Ok ()) this = (Waiting, this).
Proof.
  intros _ Hstopped. unfold create_client.
  assert (Hlive : match client this with
                  | Some c => bool_decide (LanguageClient.state c ≠ Stopped)
                  | None => false
                  end = false).
  { destruct (client this) as [c|]; [|done].
    apply bool_decide_eq_false_2. intros Hne. apply Hne. by apply Hstopped. }
  rewrite Hlive, poll_detects, poll_waits. done.
Qed.

Lemma create_client_connects_witness :
  is_running (stopped one_agent) = false
  ∧ is_running
      (create_client [Ok false; Ok false; Ok true] (Ok ()) (stopped one_agent)).2
    = true.
Proof.
  split; [reflexivity|].
  destruct (create_client_connects 2 [] "" (stopped one_agent) eq_refl) as (Hok & _).
  - intros c [= <-]. reflexivity.
  - exact (f_equal (λ out, is_running out.2) Hok).
Defined.

(** X19: the chat callback is a single slot: after two [run_chat] calls,
    whatever the backend answered to either, chat progress is delivered
    to the callback of the second call only. *)
Theorem latest_chat_callback_wins
    (chat1 chat2 : RunChatParams.t) (callback1 callback2 : ChatCallback)
    (r1 r2 : result unit) (this : t) (progress : ChatAgentProgress) :
  client this ≠ None →
  let after := (run_chat chat2 callback2 r2 (run_chat chat1 callback1 r1 this).2).2 in
  receive (MorphChatProgress progress) after = (Handled (callback2 progress), after)
  ∧ morphNotifyChatCallback after = callback2.
Proof.
  intros Hclient. unfold run_chat.
  destruct (client this) as [c|]; [|done].
  destruct r1, r2; cbn; unfold receive; cbn; by rewrite lookup_insert_eq.
Qed.

Lemma latest_chat_callback_wins_witness :
  client connected ≠ None
  ∧ (receive (MorphChatProgress "token")
       (run_chat (RunChatParams.mk "again" [] None None) (λ _, Ok ()) (Ok ())
          (run_chat (RunChatParams.mk "hi" [] None None) (λ _, Throw "first")
             (Throw "backend failure") connected).2).2).1
    = Handled (Ok ()).
Proof.
  split; [discriminate|].
  destruct (latest_chat_callback_wins (RunChatParams.mk "hi" [] None None)
              (RunChatParams.mk "again" [] None None) (λ _, Throw "first") (λ _, Ok ())
              (Throw "backend failure") (Ok ()) connected "token" ltac:(discriminate))
    as [Hreceive _].
  exact (f_equal fst Hreceive).
Defined.

(** ** The state store of the webview *)

Section StoreProperties.
Context {WebviewState : Type}.
Implicit Types (events : list (@Stores.Message WebviewState)) (current : WebviewState).

Lemma handle_all_cons (event : @Stores.Message WebviewState) events current :
  Stores.handle_all (event :: events) current
  = ((Stores.handler event current).1
       :: (Stores.handle_all events (Stores.handler event current).2).1,
     (Stores.handle_all events (Stores.handler event current).2).2).
Proof.
  simpl. destruct (Stores.handler event current) as [r current'].
  simpl. by destruct (Stores.handle_all events current').
Qed.

(** X20: over any sequence of messages the store ends with the data of
    the last message of type [stateUpdate], or with the value it had when
    there is none: updates replace the value wholesale and messages of any
    other type change nothing.  A message makes the listener throw exactly
    when its type is not [stateUpdate]. *)
Theorem store_holds_last_update events current :
  (Stores.handle_all events current).2
  = default current
      (last (Stores.data <$> filter (λ e, Stores.type e = "stateUpdate") events))
  ∧ Forall2 (λ e r, r = Ok () ↔ Stores.type e = "stateUpdate")
      events (Stores.handle_all events current).1.
Proof.
  revert current. induction events as [|event rest IH]; intros current.
  - split; [done | constructor].
  - rewrite handle_all_cons. cbn [fst snd]. rewrite filter_cons.
    destruct (decide (Stores.type event = "stateUpdate")) as [Htype|Htype].
    + assert (Hhandler : Stores.handler event current = (Ok (), Stores.data event)).
      { unfold Stores.handler. rewrite bool_decide_eq_false_2; [done|].
        intros Hne. by apply Hne. }
      rewrite Hhandler. cbn [fst snd].
      destruct (IH (Stores.data event)) as [-> Hrest].
      rewrite fmap_cons, default_last_cons.
      split; [done|]. constructor; [tauto | done].
    + assert (Hhandler : (Stores.handler event current).2 = current
                         ∧ (Stores.handler event current).1 ≠ Ok ()).
      { unfold Stores.handler. by rewrite bool_decide_eq_true_2. }
      destruct Hhandler as [-> Hthrow].
      destruct (IH current) as [-> Hrest].
      split; [done|]. constructor; [tauto | done].
Qed.

End StoreProperties.

(** ** The registry invariant across operations *)

(** X21: every operation of the client keeps the registry well formed:
    after [run_agent], [run_agent_sync], [morph_notify], [run_chat], an
    inline completion, the reconnection on a state change and the cancel,
    accept and reject commands, whatever their arguments and outcome, no
    two entries share a key and every entry is filed under the id of its
    agent. *)
Theorem registry_wf_kept
    (call : RunAgentParams.t) (r1 : result RunAgentResult.t)
    (r2 : result RunAgentSyncResult.t) (params : RunAgentProgress.t)
    (chat : RunChatParams.t) (callback : ChatCallback) (r3 : result unit)
    (doc : TextDocument) (position : Position) (s : State) (dispose : result unit)
    (checks : list (result bool)) (start : result unit) (id : Z) (this : t) :
  registry_wf (agents this) →
  registry_wf (agents (run_agent call r1 this).2)
  ∧ registry_wf (agents (run_agent_sync call r2 this).2)
  ∧ registry_wf (agents (morph_notify params this).2)
  ∧ registry_wf (agents (run_chat chat callback r3 this).2)
  ∧ registry_wf (agents (provideInlineCompletionItems doc position r2 this).2)
  ∧ registry_wf (agents (onDidChangeState s dispose checks start this).2)
  ∧ registry_wf (agents (rift_cancel id this))
  ∧ registry_wf (agents (rift_accept id this))
  ∧ registry_wf (agents (rift_reject id this)).
Proof.
  intros Hwf.
  split; [by apply run_agent_registry_wf|].
  split; [by apply run_agent_sync_registry_wf|].
  split; [by apply morph_notify_registry_wf|].
  split; [by rewrite run_chat_agents|].
  split.
  { unfold provideInlineCompletionItems.
    pose proof (run_agent_sync_registry_wf
                  (RunAgentParams.mk "complete the code" position
                     (mkTextDocumentIdentifier (document_uri doc))) r2 this Hwf) as Hsync.
    by destruct (run_agent_sync _ r2 this) as [[text|e] after]. }
  split.
  { unfold onDidChangeState, enter_state, create_client.
    destruct (client this) as [c|]; [|done].
    destruct (decide (s = Stopped)); [|done].
    destruct dispose as [[]|e1]; [|done]. simpl.
    case_bool_decide; [done|].
    by destruct (poll checks) as [[[]|e2]|]; [destruct start as [[]|e3]| |]. }
  pose proof (notify_backend_effect "morph/cancel" id this) as [Hcancel _].
  pose proof (notify_backend_effect "morph/accept" id this) as [Haccept _].
  pose proof (notify_backend_effect "morph/reject" id this) as [Hreject _].
  unfold rift_cancel, rift_accept, rift_reject.
  by rewrite Hcancel, Haccept, Hreject.
Qed.

Lemma registry_wf_kept_witness :
  registry_wf (agents two_agents)
  ∧ registry_wf (agents (morph_notify (progress 2 error None) two_agents).2).
Proof.
  assert (Hwf : registry_wf (agents two_agents)).
  { apply (bool_decide_unpack _). vm_compute. exact I. }
  split; [exact Hwf|].
  destruct (registry_wf_kept fix_bug (Ok (RunAgentResult.mk 3))
              (Ok (RunAgentSyncResult.mk 4 "")) (progress 2 error None)
              (RunChatParams.mk "hi" [] None None) (λ _, Ok ()) (Ok ())
              a_py (mkPosition 0 0) Stopped (Ok ()) [Ok true] (Ok ()) 1 two_agents Hwf)
    as (_ & _ & Hnotify & _).
  exact Hnotify.
Defined.
